(** * kamaki: command registration, dispatch, configuration and storage client

    A shallow embedding of the kamaki command-line client:
    - [Config]   : src/kamaki/cli/config.py (layered configuration store),
    - [Cli]      : src/kamaki/cli.py (command decorator, registry, dispatcher),
    - [Storage]  : src/kamaki/clients/storage.py (object-storage client).

    Python objects are embedded as values of [Py.value]; a [dict] is a
    [gmap], an [OrderedDict] whose order is observable is an association
    list, exceptions are an explicit [Py.result]. *)

From Stdlib Require Import ZArith String Ascii List Bool Lia DecimalString.
From stdpp Require Import base option list gmap strings.

Local Open Scope string_scope.
Local Open Scope list_scope.

(** ** Python values, exceptions and the string methods the sources call *)

Module Py.

(** The values the modelled code passes around: [None], [str], a list of
    [str] (what optparse's [append] action builds), [bool] and [int]. *)
Inductive value : Type :=
| VNone
| VStr (s : string)
| VList (l : list string)
| VBool (b : bool)
| VInt (z : Z).

#[global] Instance value_eq_dec : EqDecision value.
Proof. solve_decision. Defined.

(** Python truth value ([bool(v)]). *)
Definition truthy (v : value) : bool :=
  match v with
  | VNone => false
  | VStr s => negb (String.eqb s "")
  | VList l => match l with [] => false | _ => true end
  | VBool b => b
  | VInt z => negb (Z.eqb z 0)
  end.

(** [a or b]. *)
Definition or_ (a b : value) : value := if truthy a then a else b.

(** [v is None]. *)
Definition is_none (v : value) : bool :=
  match v with VNone => true | _ => false end.

(** Exceptions that the modelled code raises or lets through.
    [ClientError] carries the attributes [message], [status], [details]. *)
Inductive exn : Type :=
| TypeError
| AttributeError (msg : string)
| UnboundLocalError (var : string)
| KeyError (key : string)
| IndexError (msg : string)
| ValueError (msg : string)
| NoSectionError (section : string)
| NoOptionError (option section : string)
| DuplicateSectionError (section : string)
| ConfigError (msg : string)
| ClientError (message : string) (status : Z) (details : string)
| SystemExit (code : Z)
| OtherError (what : string).

#[global] Instance exn_eq_dec : EqDecision exn.
Proof. solve_decision. Defined.

Inductive result (A : Type) : Type :=
| Ok (a : A)
| Raise (e : exn).
Arguments Ok {A} a.
Arguments Raise {A} e.

(** *** str methods *)

Definition underscore : ascii := "_"%char.
Definition space : ascii := " "%char.

(** [s.replace(a, b)] for one-character [a] and [b]. *)
Fixpoint replace (a b : ascii) (s : string) : string :=
  match s with
  | EmptyString => EmptyString
  | String c s' => String (if Ascii.eqb c a then b else c) (replace a b s')
  end.

(** [s.partition(c)] for a one-character separator: the part before the
    first occurrence, the separator (empty when absent), the rest. *)
Fixpoint partition (c : ascii) (s : string) : string * string * string :=
  match s with
  | EmptyString => (EmptyString, EmptyString, EmptyString)
  | String x s' =>
      if Ascii.eqb x c then (EmptyString, String c EmptyString, s')
      else
        match partition c s' with
        | (h, EmptyString, _) => (String x s', EmptyString, EmptyString)
        | (h, sep, t) => (String x h, sep, t)
        end
  end.

(** [c in s] for a character [c]. *)
Fixpoint has_char (c : ascii) (s : string) : bool :=
  match s with
  | EmptyString => false
  | String x s' => (Ascii.eqb x c || has_char c s')%bool
  end.

(** [sep.join(l)]. *)
Definition join (sep : string) (l : list string) : string := String.concat sep l.

(** [c in string.whitespace]. *)
Definition is_space (c : ascii) : bool :=
  let n := nat_of_ascii c in
  (Nat.eqb n 32 || (Nat.leb 9 n && Nat.leb n 13))%bool.

Fixpoint split_aux (cur : string) (s : string) : list string :=
  match s with
  | EmptyString => if String.eqb cur "" then [] else [cur]
  | String c s' =>
      if is_space c
      then (if String.eqb cur "" then split_aux "" s' else cur :: split_aux "" s')
      else split_aux (cur +:+ String c EmptyString) s'
  end.

(** [s.split()]: the maximal runs of non-whitespace characters. *)
Definition split (s : string) : list string := split_aux "" s.

Definition lower_char (c : ascii) : ascii :=
  let n := nat_of_ascii c in
  if (Nat.leb 65 n && Nat.leb n 90)%bool then ascii_of_nat (n + 32) else c.

(** [s.lower()]. *)
Fixpoint lower (s : string) : string :=
  match s with
  | EmptyString => EmptyString
  | String c s' => String (lower_char c) (lower s')
  end.

(** [s.ljust(n)]. *)
Fixpoint ljust (n : nat) (s : string) : string :=
  match n, s with
  | O, _ => s
  | S n', EmptyString => String space (ljust n' EmptyString)
  | S n', String c s' => String c (ljust n' s')
  end.

(** [s.lstrip()]. *)
Fixpoint lstrip (s : string) : string :=
  match s with
  | EmptyString => EmptyString
  | String c s' => if is_space c then lstrip s' else s
  end.

(** [x in l] for a list of strings. *)
Definition mem (x : string) (l : list string) : bool :=
  existsb (String.eqb x) l.

(** [str(v)] as used by the ['%s'] conversions of the sources. *)
Definition str (v : value) : string :=
  match v with
  | VNone => "None"
  | VStr s => s
  | VList l => "[" +:+ join ", " (map (fun x => "'" +:+ x +:+ "'") l) +:+ "]"
  | VBool true => "True"
  | VBool false => "False"
  | VInt z => NilZero.string_of_int (Z.to_int z)
  end.

(** [v.split()]: only a [str] has the method. *)
Definition call_split (v : value) : result (list string) :=
  match v with
  | VStr s => Ok (split s)
  | VNone => Raise (AttributeError "'NoneType' object has no attribute 'split'")
  | VList _ => Raise (AttributeError "'list' object has no attribute 'split'")
  | VBool _ => Raise (AttributeError "'bool' object has no attribute 'split'")
  | VInt _ => Raise (AttributeError "'int' object has no attribute 'split'")
  end.

End Py.

(** ** collections.OrderedDict: a dictionary that remembers insertion order *)

Module OrderedDict.
Section dict.
Context {K V : Type} `{EqDecision K}.

Definition t : Type := list (K * V).

Definition empty : t := [].

(** [d.get(k)]: [None] when the key is absent. *)
Fixpoint get (d : t) (k : K) : option V :=
  match d with
  | [] => None
  | (k', v) :: d' => if decide (k' = k) then Some v else get d' k
  end.

(** [k in d]. *)
Definition contains (d : t) (k : K) : bool :=
  match get d k with Some _ => true | None => false end.

(** [d[k] = v]: an existing key keeps its position, a new one goes last. *)
Fixpoint setitem (d : t) (k : K) (v : V) : t :=
  match d with
  | [] => [(k, v)]
  | (k', v') :: d' =>
      if decide (k' = k) then (k', v) :: d' else (k', v') :: setitem d' k v
  end.

(** [del d[k]] for a key that may be absent. *)
Fixpoint delitem (d : t) (k : K) : t :=
  match d with
  | [] => []
  | (k', v') :: d' =>
      if decide (k' = k) then d' else (k', v') :: delitem d' k
  end.

Definition keys (d : t) : list K := map fst d.
Definition items (d : t) : list (K * V) := d.
End dict.
Arguments t : clear implicits.
End OrderedDict.

(** ** ConfigParser.RawConfigParser (Python 2 standard library), the base
    class of [Config], built with [dict_type=OrderedDict] *)

Module RawConfigParser.
Import Py.

Record t : Type := mk {
  _sections : OrderedDict.t string (OrderedDict.t string value);
  _defaults : OrderedDict.t string value
}.

Definition DEFAULTSECT : string := "DEFAULT".

Definition __init__ : t := {| _sections := []; _defaults := [] |}.

(** Option names are case-insensitive: [optionxform] is [str.lower]. *)
Definition optionxform (option : string) : string := lower option.

(** [sections()]: the section names, [DEFAULT] never among them. *)
Definition sections (self : t) : list string := OrderedDict.keys (_sections self).

Definition add_section (self : t) (section : string) : t * result unit :=
  if String.eqb (lower section) "default"
  then (self, Raise (ValueError ("Invalid section name: " +:+ section)))
  else if OrderedDict.contains (_sections self) section
  then (self, Raise (DuplicateSectionError section))
  else ({| _sections := OrderedDict.setitem (_sections self) section [];
           _defaults := _defaults self |}, Ok tt).

Definition get (self : t) (section option : string) : result value :=
  let opt := optionxform option in
  match OrderedDict.get (_sections self) section with
  | None =>
      if negb (String.eqb section DEFAULTSECT) then Raise (NoSectionError section)
      else match OrderedDict.get (_defaults self) opt with
           | Some v => Ok v
           | None => Raise (NoOptionError option section)
           end
  | Some sect =>
      match OrderedDict.get sect opt with
      | Some v => Ok v
      | None =>
          match OrderedDict.get (_defaults self) opt with
          | Some v => Ok v
          | None => Raise (NoOptionError option section)
          end
      end
  end.

Definition set (self : t) (section option : string) (val : value) : t * result unit :=
  if (String.eqb section "" || String.eqb section DEFAULTSECT)%bool
  then ({| _sections := _sections self;
           _defaults := OrderedDict.setitem (_defaults self) (optionxform option) val |},
        Ok tt)
  else match OrderedDict.get (_sections self) section with
       | None => (self, Raise (NoSectionError section))
       | Some sectdict =>
           ({| _sections := OrderedDict.setitem (_sections self) section
                              (OrderedDict.setitem sectdict (optionxform option) val);
               _defaults := _defaults self |}, Ok tt)
       end.

(** Returns whether the option existed. *)
Definition remove_option (self : t) (section option : string) : t * result bool :=
  if (String.eqb section "" || String.eqb section DEFAULTSECT)%bool
  then let o := optionxform option in
       ({| _sections := _sections self;
           _defaults := OrderedDict.delitem (_defaults self) o |},
        Ok (OrderedDict.contains (_defaults self) o))
  else match OrderedDict.get (_sections self) section with
       | None => (self, Raise (NoSectionError section))
       | Some sectdict =>
           let o := optionxform option in
           ({| _sections := OrderedDict.setitem (_sections self) section
                              (OrderedDict.delitem sectdict o);
               _defaults := _defaults self |},
            Ok (OrderedDict.contains sectdict o))
       end.

(** [read]: the sections of a parsed file are merged into the parser, in
    file order. A section seen for the first time gets the entry
    [__name__]; the section [DEFAULT] feeds [_defaults]. A file that
    cannot be opened is skipped. *)
Definition read_section (self : t) (sec : string * list (string * string)) : t :=
  let '(sectname, opts) := sec in
  let store (d : OrderedDict.t string value) :=
    fold_left (fun d kv => OrderedDict.setitem d (optionxform (fst kv)) (VStr (snd kv)))
              opts d in
  match OrderedDict.get (_sections self) sectname with
  | Some cursect =>
      {| _sections := OrderedDict.setitem (_sections self) sectname (store cursect);
         _defaults := _defaults self |}
  | None =>
      if String.eqb sectname DEFAULTSECT
      then {| _sections := _sections self; _defaults := store (_defaults self) |}
      else {| _sections := OrderedDict.setitem (_sections self) sectname
                             (store [("__name__", VStr sectname)]);
              _defaults := _defaults self |}
  end.

Definition read (self : t) (parsed : option (list (string * list (string * string)))) : t :=
  match parsed with
  | None => self
  | Some secs => fold_left read_section secs self
  end.

(** [items(section)]: the [DEFAULT] entries overlaid with the section's
    own, [__name__] left out. Only the section [DEFAULT] may be missing. *)
Definition items (self : t) (section : string) : result (OrderedDict.t string value) :=
  let overlay (d2 : OrderedDict.t string value) :=
    OrderedDict.delitem
      (fold_left (fun d kv => OrderedDict.setitem d (fst kv) (snd kv)) d2 (_defaults self))
      "__name__" in
  match OrderedDict.get (_sections self) section with
  | Some d2 => Ok (overlay d2)
  | None =>
      if negb (String.eqb section DEFAULTSECT) then Raise (NoSectionError section)
      else Ok (overlay [])
  end.

Definition nl : string := String "010"%char EmptyString.

(** [s.replace('\n', '\n\t')]: continuation lines are indented by a tab. *)
Fixpoint continuation (s : string) : string :=
  match s with
  | EmptyString => EmptyString
  | String c s' =>
      if Ascii.eqb c "010"%char
      then String "010"%char (String "009"%char (continuation s'))
      else String c (continuation s')
  end.

Definition write_item (kv : string * value) : string :=
  fst kv +:+ " = " +:+ continuation (str (snd kv)) +:+ nl.

(** The strings [write(fp)] hands to [fp.write], call by call. *)
Definition write (self : t) : list string :=
  (match _defaults self with
   | [] => []
   | _ => ["[" +:+ DEFAULTSECT +:+ "]" +:+ nl]
            ++ map write_item (OrderedDict.items (_defaults self))
            ++ [nl]
   end)
  ++ flat_map (fun sec =>
       ["[" +:+ fst sec +:+ "]" +:+ nl]
         ++ map write_item
              (filter (fun kv => fst kv ≠ "__name__") (OrderedDict.items (snd sec)))
         ++ [nl])
     (OrderedDict.items (_sections self)).

(** An option is present in a section of the parser. *)
Definition present (b : t) (section k : string) : Prop :=
  ∃ sect v, OrderedDict.get (_sections b) section = Some sect
            ∧ OrderedDict.get sect k = Some v.

End RawConfigParser.

(** ** kamaki.cli.config: the layered configuration store *)

Module Config.
Import Py.

(** The code expands the [~] of the path to the user's home directory
    when the module is loaded; here the path only names the file. *)
Definition CONFIG_PATH : string := "~/.kamakirc".
Definition CONFIG_ENV : string := "KAMAKI_CONFIG".

Definition HEADER : string :=
  RawConfigParser.nl +:+ "# Kamaki configuration file" +:+ RawConfigParser.nl.

Definition DEFAULTS : gmap string (gmap string value) :=
  <["global" := <["colors" := VStr "on"]> (<["token" := VStr ""]> ∅)]>
  (<["config" := <["cli" := VStr "config_cli"]>
                 (<["description" := VStr "Configuration commands"]> ∅)]> ∅).

(** A [Config] object: the inherited parser state, the path of its file
    and the run-time overrides (a [defaultdict(dict)]). *)
Record t : Type := mk {
  base : RawConfigParser.t;
  path : string;
  _overrides : gmap string (gmap string value)
}.

Definition with_base (self : t) (b : RawConfigParser.t) : t :=
  {| base := b; path := path self; _overrides := _overrides self |}.

Definition get (self : t) (section option : string) : result value :=
  let value := default VNone (default ∅ (_overrides self !! section) !! option) in
  if negb (is_none value) then Ok value
  else
    match RawConfigParser.get (base self) section option with
    | Ok v => Ok v
    | Raise (NoSectionError _) | Raise (NoOptionError _ _) =>
        Ok (default VNone (default ∅ (DEFAULTS !! section) !! option))
    | Raise e => Raise e
    end.

Definition set (self : t) (section option : string) (val : value) : t * result unit :=
  let '(b, r) :=
    if negb (mem section (RawConfigParser.sections (base self)))
    then RawConfigParser.add_section (base self) section
    else (base self, Ok tt) in
  match r with
  | Raise e => (with_base self b, Raise e)
  | Ok _ =>
      let '(b', r') := RawConfigParser.set b section option val in
      (with_base self b', r')
  end.

Definition remove_option (self : t) (section option : string) : t * result unit :=
  match RawConfigParser.remove_option (base self) section option with
  | (b, Ok _) => (with_base self b, Ok tt)
  | (b, Raise (NoSectionError _)) => (with_base self b, Ok tt)
  | (b, Raise e) => (with_base self b, Raise e)
  end.

Definition override (self : t) (section option : string) (val : value) : t :=
  {| base := base self; path := path self;
     _overrides := <[section := <[option := val]> (default ∅ (_overrides self !! section))]>
                     (_overrides self) |}.

(** [apis()]: the sections other than [global], in order. *)
Definition apis (self : t) : list string :=
  filter (fun api => api ≠ "global") (RawConfigParser.sections (base self)).

(** [items(section, include_defaults)]: a plain [dict], so a [gmap]; its
    [.items()] is the list of its entries in no particular order.
    [DEFAULTS[section]] raises [KeyError] for a section without built-in
    defaults. *)
Definition items (self : t) (section : string) (include_defaults : bool)
    : result (gmap string value) :=
  let update (d : gmap string value) :=
    match RawConfigParser.items (base self) section with
    | Ok kvs => Ok (fold_left (fun d kv => <[fst kv := snd kv]> d) kvs d)
    | Raise (NoSectionError _) => Ok d
    | Raise e => Raise e
    end in
  if include_defaults
  then match DEFAULTS !! section with
       | Some d => update d
       | None => Raise (KeyError section)
       end
  else update ∅.

(** *** The three layers of the specification (section 4.4), read off a
    [Config] object: the run-time override if one is set ([None] standing
    for the missing value), the persisted value if the section and key
    exist for the parser, the built-in default if one is defined. *)

Definition override_layer (self : t) (section option : string) : Datatypes.option value :=
  match _overrides self !! section with
  | Some d => match d !! option with
              | Some v => if is_none v then None else Some v
              | None => None
              end
  | None => None
  end.

Definition persisted_layer (self : t) (section option : string) : Datatypes.option value :=
  let opt := lower option in
  let p := base self in
  match OrderedDict.get (RawConfigParser._sections p) section with
  | Some sect =>
      match OrderedDict.get sect opt with
      | Some v => Some v
      | None => OrderedDict.get (RawConfigParser._defaults p) opt
      end
  | None =>
      if String.eqb section RawConfigParser.DEFAULTSECT
      then OrderedDict.get (RawConfigParser._defaults p) opt
      else None
  end.

Definition default_layer (section option : string) : Datatypes.option value :=
  match DEFAULTS !! section with
  | Some d => d !! option
  | None => None
  end.

(** [_load_defaults]: every built-in default is stored through [set]. The
    iteration order of a plain [dict] is unspecified; here it is that of
    [map_to_list]. *)
Definition _load_defaults (self : t) : t * result unit :=
  fold_left
    (fun (acc : t * result unit) (so : string * gmap string value) =>
       fold_left
         (fun (acc : t * result unit) (ov : string * value) =>
            match acc with
            | (c, Ok _) => set c (fst so) (fst ov) (snd ov)
            | (c, Raise e) => (c, Raise e)
            end)
         (map_to_list (snd so)) acc)
    (map_to_list DEFAULTS) (self, Ok tt).

(** [Config(path)]: defaults first, then the file at [path] (given here
    already parsed, per path), which may shadow them. *)
Definition __init__ (path_arg : option string) (environ : gmap string string)
    (files : string -> option (list (string * list (string * string)))) : t * result unit :=
  let p := match path_arg with
           | Some p => if String.eqb p "" then default CONFIG_PATH (environ !! CONFIG_ENV) else p
           | None => default CONFIG_PATH (environ !! CONFIG_ENV)
           end in
  match _load_defaults {| base := RawConfigParser.__init__; path := p; _overrides := ∅ |} with
  | (c, Ok _) => (with_base c (RawConfigParser.read (base c) (files p)), Ok tt)
  | (c, Raise e) => (c, Raise e)
  end.

(** *** What the parser keeps true of its dictionaries

    Keys are unique (they are dictionaries), option names are stored in
    lower case, and [DEFAULT] is never the name of a section. *)

Definition tidy (d : OrderedDict.t string value) : Prop :=
  NoDup (OrderedDict.keys d) ∧ Forall (fun kv => lower (fst kv) = fst kv) d.

Record wf (self : t) : Prop := mkwf {
  wf_sections : NoDup (OrderedDict.keys (RawConfigParser._sections (base self)));
  wf_options : Forall (fun sec => tidy (snd sec)) (RawConfigParser._sections (base self));
  wf_defaults : tidy (RawConfigParser._defaults (base self));
  wf_default_section :
    RawConfigParser.DEFAULTSECT ∉ OrderedDict.keys (RawConfigParser._sections (base self))
}.

(** *** The file behind [path] and [write]

    A file is its bytes and its permission bits; [write] is the sequence
    of system-level steps the [with open(...)] block performs. *)

Record file : Type := mkfile { content : string; mode : Z }.

Inductive step : Type :=
| OpenW                      (* open(path, 'w'): create or truncate *)
| Chmod (m : Z)              (* os.chmod(path, m) *)
| FWrite (data : string)     (* f.write(data) *)
| Close.                     (* leaving the with block *)

(** Permission bits given to a file that [open] creates. *)
Definition creation_mode : Z := 420 (* 0644 *).

Definition exec (s : step) (f : option file) : option file :=
  match s, f with
  | OpenW, Some old => Some {| content := ""; mode := mode old |}
  | OpenW, None => Some {| content := ""; mode := creation_mode |}
  | Chmod m, Some old => Some {| content := content old; mode := m |}
  | FWrite data, Some old => Some {| content := content old +:+ data; mode := mode old |}
  | Close, _ => f
  | _, None => None
  end.

Definition run (steps : list step) (f : option file) : option file :=
  fold_left (fun f s => exec s f) steps f.

(** [write]: open for writing, restrict the mode to 0600, write the header
    and then what [RawConfigParser.write] produces. *)
Definition write (self : t) : list step :=
  [OpenW; Chmod 384 (* 0600 *); FWrite (lstrip HEADER)]
    ++ map FWrite (RawConfigParser.write (base self))
    ++ [Close].

(** [write] cut short after its first [n] steps. *)
Definition interrupted (self : t) (n : nat) : list step := take n (write self).

(** The text a completed [write] leaves in the file. *)
Definition written (self : t) : string :=
  lstrip HEADER +:+ String.concat "" (RawConfigParser.write (base self)).

(** "A write interrupted partway does not lose the prior file content":
    whatever proper prefix of the steps ran, the file still reads as
    before. *)
Definition survives_interruption (self : t) : Prop :=
  ∀ (n : nat) (old : file),
    n < length (write self) →
    content <$> run (interrupted self n) (Some old) = Some (content old).

End Config.

(** ** optparse.OptionParser (Python 2 standard library), as far as the
    dispatcher uses it: options with the actions [store], [store_true]
    and [append], abbreviated long options, [--opt=value], clustered
    short options, [--], interspersed positional arguments. *)

Module Optparse.
Import Py.

Inductive action : Type := store | store_true | append.

(** [add_option(opt_str, dest=..., action=..., default=...)];
    [default_ = None] stands for "no default given". *)
Record option_ : Type := mkopt {
  opt_str : string;
  dest : string;
  act : action;
  default_ : option value
}.

Record t : Type := mk {
  usage : string;
  epilog : value;
  option_list : list option_;
  (** [parser.error] has been replaced by [lambda msg: None] *)
  error_silenced : bool
}.

(** [add_option]. The library refuses an option string that another
    option of the parser has already taken ([OptionConflictError]); the
    check is left out here: the options that the classes of cli.py add
    ([-l], [-f], [--personality]) are not among those of [main]. *)
Definition add_option (p : t) (o : option_) : t :=
  {| usage := usage p; epilog := epilog p;
     option_list := option_list p ++ [o]; error_silenced := error_silenced p |}.

Definition set_usage (p : t) (u : string) : t :=
  {| usage := u; epilog := epilog p;
     option_list := option_list p; error_silenced := error_silenced p |}.

Definition set_epilog (p : t) (e : value) : t :=
  {| usage := usage p; epilog := e;
     option_list := option_list p; error_silenced := error_silenced p |}.

Definition set_error (p : t) (silenced : bool) : t :=
  {| usage := usage p; epilog := epilog p;
     option_list := option_list p; error_silenced := silenced |}.

(** The attributes of an [optparse.Values] object. *)
Abbreviation values := (gmap string value).

Definition getattr (v : values) (attr : string) : result value :=
  match v !! attr with
  | Some x => Ok x
  | None => Raise (AttributeError ("Values instance has no attribute '" +:+ attr +:+ "'"))
  end.

Definition get_default_values (p : t) : values :=
  fold_left
    (fun (v : values) o =>
       match default_ o with
       | Some d => <[dest o := d]> v
       | None => match v !! dest o with Some _ => v | None => <[dest o := VNone]> v end
       end)
    (option_list p) ∅.

Definition takes_value (o : option_) : bool :=
  match act o with store | append => true | store_true => false end.

(** [Option.take_action]. [append] goes through
    [values.ensure_value(dest, []).append(value)]. *)
Definition take_action (o : option_) (val : string) (v : values) : result values :=
  match act o with
  | store => Ok (<[dest o := VStr val]> v)
  | store_true => Ok (<[dest o := VBool true]> v)
  | append =>
      match v !! dest o with
      | None | Some VNone => Ok (<[dest o := VList [val]]> v)
      | Some (VList l) => Ok (<[dest o := VList (l ++ [val])]> v)
      | Some _ => Raise (AttributeError "object has no attribute 'append'")
      end
  end.

Definition is_long (o : option_) : bool := String.prefix "--" (opt_str o).

(** [_match_abbrev]: an exact match, else the unique option the word
    abbreviates. *)
Definition match_long_opt (p : t) (opt : string) : option option_ :=
  let longs := filter (fun o => is_long o = true) (option_list p) in
  match filter (fun o => opt_str o = opt) longs with
  | o :: _ => Some o
  | [] =>
      match filter (fun o => String.prefix opt (opt_str o) = true) longs with
      | [o] => Some o
      | _ => None
      end
  end.

Definition short_opt (p : t) (opt : string) : option option_ :=
  match filter (fun o => opt_str o = opt) (filter (fun o => is_long o = false) (option_list p)) with
  | o :: _ => Some o
  | [] => None
  end.

(** How the handling of one argument ends. [BadOption] is the
    [BadOptionError] that [parse_args] catches and hands to [error];
    [Fatal] is an exception that leaves [parse_args]. *)
Inductive signal : Type :=
| BadOption (opt : string)
| Fatal (e : exn).

Inductive progress : Type :=
| Continue (v : values) (took_next : bool)
| Stop (v : values) (rargs : list string) (s : signal).

(** [self.error(msg)] called from inside the option processing: the
    original prints usage and exits with status 2; the silenced one
    returns, after which the local [value] is read before assignment. *)
Definition direct_error (p : t) : exn :=
  if error_silenced p then UnboundLocalError "value" else SystemExit 2.

Definition process (o : option_) (val : string) (v : values) (took_next : bool)
    (rargs : list string) : progress :=
  match take_action o val v with
  | Ok v' => Continue v' took_next
  | Raise e => Stop v rargs (Fatal e)
  end.

Definition process_long_opt (p : t) (arg : string) (rest : list string) (v : values) : progress :=
  let '(opt, sep, next_arg) := partition "="%char arg in
  let had_explicit_value := negb (String.eqb sep "") in
  match match_long_opt p opt with
  | None => Stop v (if had_explicit_value then next_arg :: rest else rest) (BadOption opt)
  | Some o =>
      if takes_value o then
        if had_explicit_value then process o next_arg v false rest
        else match rest with
             | [] => Stop v rest (Fatal (direct_error p))
             | val :: rest' => process o val v true rest'
             end
      else if had_explicit_value then Stop v (next_arg :: rest) (Fatal (direct_error p))
      else process o "" v false rest
  end.

Fixpoint process_short_opts (p : t) (chars : string) (rest : list string) (v : values) : progress :=
  match chars with
  | EmptyString => Continue v false
  | String ch chars' =>
      let opt := String "-"%char (String ch EmptyString) in
      match short_opt p opt with
      | None => Stop v rest (BadOption opt)
      | Some o =>
          if takes_value o then
            match chars' with
            | EmptyString =>
                match rest with
                | [] => Stop v rest (Fatal (direct_error p))
                | val :: rest' => process o val v true rest'
                end
            | _ => process o chars' v false rest
            end
          else
            match take_action o "" v with
            | Ok v' => process_short_opts p chars' rest v'
            | Raise e => Stop v rest (Fatal e)
            end
      end
  end.

Fixpoint process_args (p : t) (v : values) (largs rargs : list string)
    : values * list string * list string * option signal :=
  match rargs with
  | [] => (v, largs, [], None)
  | arg :: rest =>
      let go (r : progress) :=
        match r with
        | Continue v' false => process_args p v' largs rest
        | Continue v' true =>
            match rest with
            | _ :: rest' => process_args p v' largs rest'
            | [] => (v', largs, [], None)
            end
        | Stop v' rargs' s => (v', largs, rargs', Some s)
        end in
      if String.eqb arg "--" then (v, largs, rest, None)
      else if String.prefix "--" arg then go (process_long_opt p arg rest v)
      else
        match arg with
        | String "-" (String c chars) => go (process_short_opts p (String c chars) rest v)
        | _ => process_args p v (largs ++ [arg]) rest
        end
  end.

(** [parse_args(args)]: the option values and the positional arguments. *)
Definition parse_args (p : t) (args : list string) : result (values * list string) :=
  match process_args p (get_default_values p) [] args with
  | (v, largs, rargs, None) => Ok (v, largs ++ rargs)
  | (v, largs, rargs, Some (BadOption _)) =>
      if error_silenced p then Ok (v, largs ++ rargs) else Raise (SystemExit 2)
  | (_, _, _, Some (Fatal e)) => Raise e
  end.

(** The exceptions that option processing lets out of [parse_args]:
    the one [self.error] ends in, and the [AttributeError] of an
    [append] to a value that is no list. *)
Definition expected (p : t) (e : exn) : Prop :=
  e = direct_error p ∨ ∃ msg, e = AttributeError msg.

Definition harmless (p : t) (r : progress) : Prop :=
  match r with
  | Stop _ _ (Fatal e) => expected p e
  | _ => True
  end.

End Optparse.

(** ** kamaki.config.Config, the key-addressed store the dispatcher imports *)

Module KConfig.
Import Py.

(** Modelled from the spec: the module [kamaki.config] that cli.py imports
    is not among the sources. Its [Config] is the store of sections 3 and
    4.4 addressed by key alone: [get(key)] is the run-time override if
    set, else the persisted value if the key exists, else the built-in
    default, else absent ([None]); [override(key, value)] changes the
    run-time layer only. As in kamaki.cli.config, an override of [None]
    counts as not set. *)
Record t : Type := mk {
  defaults : gmap string value;
  persisted : gmap string value;
  overrides : gmap string value
}.

(** Modelled from the spec: [Config.get(key)] of the missing module
    [kamaki.config], with the resolution order of section 4.4. *)
Definition get (self : t) (key : string) : value :=
  let v := default VNone (overrides self !! key) in
  if negb (is_none v) then v
  else match persisted self !! key with
       | Some p => p
       | None => default VNone (defaults self !! key)
       end.

(** Modelled from the spec: [Config.override(key, value)] of the missing
    module [kamaki.config]; only the run-time layer changes. *)
Definition override (self : t) (key : string) (val : value) : t :=
  {| defaults := defaults self; persisted := persisted self;
     overrides := <[key := val]> (overrides self) |}.

End KConfig.

(** ** kamaki/cli.py: the command decorator, the registry, the dispatcher *)

Module Cli.
Import Py.

(** *** Python slices [l[:n]] and [l[n:]] for an integer [n] of any sign *)

Definition slice_index {A} (l : list A) (n : Z) : nat :=
  let len := Z.of_nat (length l) in
  Z.to_nat (if (n <? 0)%Z then Z.max 0 (len + n) else Z.min n len).

Definition slice_to {A} (l : list A) (n : Z) : list A := take (slice_index l n) l.
Definition slice_from {A} (l : list A) (n : Z) : list A := drop (slice_index l n) l.

(** *** Command classes *)

(** [inspect.getargspec(main)]: the parameter names, receiver included,
    and the tuple of default values ([None] when there is none). *)
Record argspec : Type := mkspec {
  args : list string;
  defaults : option (list value)
}.

(** A command class as written, before the decorator has seen it. *)
Record classdef : Type := mkclass {
  __name__ : string;
  __doc__ : value;
  main_spec : argspec;
  update_parser : option (Optparse.t -> Optparse.t)
}.

(** A registered command class: the attributes the decorator sets. *)
Record cls : Type := mkcls {
  def : classdef;
  api : value;
  group : value;
  name : value;
  description : value;
  syntax : value
}.

Definition registry : Type := OrderedDict.t value (OrderedDict.t value cls).

(** Syntax string generated from [main]'s arguments. *)
Definition generate_syntax (spec : argspec) : string :=
  let args := slice_from (args spec) 1 in
  let n := (Z.of_nat (length args)
            - Z.of_nat (length (match defaults spec with Some d => d | None => [] end)))%Z in
  let required :=
    join " " (map (fun x => "<" +:+ replace underscore space x +:+ ">") (slice_to args n)) in
  let optional :=
    join " " (map (fun x => "[" +:+ replace underscore space x +:+ "]") (slice_from args n)) in
  join " " (filter (fun x => x ≠ "") [required; optional]).

(** The same string in the words of the specification: required
    parameters as [<param with underscores replaced by spaces>], then
    optional parameters as [[param]], space-joined. *)
Definition syntax_as_specified (required optional : list string) : string :=
  join " " (map (fun x => "<" +:+ replace underscore space x +:+ ">") required
            ++ map (fun x => "[" +:+ x +:+ "]") optional).

(** The specification's rendering with the underscores of optional
    parameters replaced as well. *)
Definition syntax_amended (required optional : list string) : string :=
  join " " (map (fun x => "<" +:+ replace underscore space x +:+ ">") required
            ++ map (fun x => "[" +:+ replace underscore space x +:+ "]") optional).

(** The class decorator [command(api, group, name, description, syntax)]:
    it fills in the attributes of the class and registers it. *)
Definition decorator (api group name description syntax : value) (c : classdef) : cls :=
  let '(grp, sep, cmd) := partition underscore (__name__ c) in
  let '(grp, cmd) :=
    if negb (truthy (VStr sep)) then (VNone, VStr (__name__ c)) else (VStr grp, VStr cmd) in
  {| def := c;
     api := api;
     group := or_ group grp;
     name := or_ name cmd;
     description := or_ description (__doc__ c);
     syntax := if is_none syntax then VStr (generate_syntax (main_spec c)) else syntax |}.

Definition register (_commands : registry) (c : cls) : registry :=
  let _commands :=
    if negb (OrderedDict.contains _commands (group c))
    then OrderedDict.setitem _commands (group c) []
    else _commands in
  match OrderedDict.get _commands (group c) with
  | Some cmds => OrderedDict.setitem _commands (group c) (OrderedDict.setitem cmds (name c) c)
  | None => _commands
  end.

Definition command (api group name description syntax : value) (c : classdef)
    (_commands : registry) : cls * registry :=
  let k := decorator api group name description syntax c in
  (k, register _commands k).

(** *** The command classes of cli.py, in source order *)

Definition flag (o d help : string) : Optparse.option_ :=
  Optparse.mkopt o d Optparse.store_true (Some (VBool false)).

Definition plain (nm doc : string) (params : list string) (dflts : option (list value))
    (up : option (Optparse.t -> Optparse.t)) : classdef :=
  mkclass nm (VStr doc) (mkspec ("self" :: params) dflts) up.

Definition detail_option (p : Optparse.t) : Optparse.t :=
  Optparse.add_option p (flag "-l" "detail" "show detailed output").

Definition server_create_parser (p : Optparse.t) : Optparse.t :=
  Optparse.set_epilog
    (Optparse.add_option p
       (Optparse.mkopt "--personality" "personalities" Optparse.append (Some (VList []))))
    (VStr "If missing, optional personality values will be filled based on the file at PATH if missing.").

Definition server_reboot_parser (p : Optparse.t) : Optparse.t :=
  Optparse.add_option p (flag "-f" "hard" "perform a hard reboot").

(** Each entry: the [api] given to [@command] and the class. *)
Definition classes : list (value * classdef) :=
  [ (VNone, plain "config_list" "list configuration options" [] None None);
    (VNone, plain "config_get" "get a configuration option" ["key"] None None);
    (VNone, plain "config_set" "set a configuration option" ["key"; "val"] None None);
    (VNone, plain "config_del" "delete a configuration option" ["key"] None None);
    (VStr "nova", plain "server_list" "list servers" [] None (Some detail_option));
    (VStr "nova", plain "server_info" "get server details" ["server_id"] None None);
    (VStr "nova", plain "server_create" "create server" ["name"; "flavor_id"; "image_id"] None
                        (Some server_create_parser));
    (VStr "nova", plain "server_rename" "update server name" ["server_id"; "new_name"] None None);
    (VStr "nova", plain "server_delete" "delete server" ["server_id"] None None);
    (VStr "nova", plain "server_reboot" "reboot server" ["server_id"] None
                        (Some server_reboot_parser));
    (VStr "synnefo", plain "server_start" "start server" ["server_id"] None None);
    (VStr "synnefo", plain "server_shutdown" "shutdown server" ["server_id"] None None);
    (VStr "synnefo", plain "server_console" "get a VNC console" ["server_id"] None None);
    (VStr "synnefo", plain "server_firewall" "set the firewall profile" ["server_id"; "profile"] None None);
    (VStr "synnefo", plain "server_addr" "list server addresses" ["server_id"; "network"]
                           (Some [VNone]) None);
    (VStr "nova", plain "server_meta" "get server metadata" ["server_id"; "key"] (Some [VNone]) None);
    (VStr "nova", plain "server_addmeta" "add server metadata" ["server_id"; "key"; "val"] None None);
    (VStr "nova", plain "server_setmeta" "update server metadata" ["server_id"; "key"; "val"] None None);
    (VStr "nova", plain "server_delmeta" "delete server metadata" ["server_id"; "key"] None None);
    (VStr "synnefo", plain "server_stats" "get server statistics" ["server_id"] None None);
    (VStr "nova", plain "flavor_list" "list flavors" [] None (Some detail_option));
    (VStr "nova", plain "flavor_info" "get flavor details" ["flavor_id"] None None);
    (VStr "nova", plain "image_list" "list images" [] None (Some detail_option));
    (VStr "nova", plain "image_info" "get image details" ["image_id"] None None);
    (VStr "nova", plain "image_create" "create image" ["server_id"; "name"] None None);
    (VStr "nova", plain "image_delete" "delete image" ["image_id"] None None);
    (VStr "nova", plain "image_meta" "get image metadata" ["image_id"; "key"] (Some [VNone]) None);
    (VStr "nova", plain "image_addmeta" "add image metadata" ["image_id"; "key"; "val"] None None);
    (VStr "nova", plain "image_setmeta" "update image metadata" ["image_id"; "key"; "val"] None None);
    (VStr "nova", plain "image_delmeta" "delete image metadata" ["image_id"; "key"] None None);
    (VStr "synnefo", plain "network_list" "list networks" [] None (Some detail_option));
    (VStr "synnefo", plain "network_create" "create a network" ["name"] None None);
    (VStr "synnefo", plain "network_info" "get network details" ["network_id"] None None);
    (VStr "synnefo", plain "network_rename" "update network name" ["network_id"; "new_name"] None None);
    (VStr "synnefo", plain "network_delete" "delete a network" ["network_id"] None None);
    (VStr "synnefo", plain "network_connect" "connect a server to a network"
                           ["server_id"; "network_id"] None None);
    (VStr "synnefo", plain "network_disconnect" "disconnect a server from a network"
                           ["server_id"; "network_id"] None None);
    (VStr "glance", plain "glance_list" "list images" [] None None) ].

(** The module-level registry once every class has been decorated. *)
Definition _commands : registry :=
  fold_left (fun reg ac => snd (command (fst ac) VNone VNone VNone VNone (snd ac) reg))
            classes [].

(** *** What a run does: output, log records, result *)

Definition DEBUG : Z := 10.
Definition INFO : Z := 20.
Definition WARNING : Z := 30.
Definition ERROR : Z := 40.

Inductive event : Type :=
| SetLevel (level : Z)              (* log.setLevel(level) *)
| PrintHelp (p : Optparse.t)        (* parser.print_help() *)
| Out (line : string)               (* print line *)
| Log (level : Z) (msg : string).   (* log.error / log.info *)

(** A computation: the events it caused, then its value or the exception
    that ended it. *)
Definition M (A : Type) : Type := list event * result A.

Definition ret {A} (a : A) : M A := ([], Ok a).
Definition raise {A} (e : exn) : M A := ([], Raise e).
Definition tell (evs : list event) : M unit := (evs, Ok tt).
Definition lift {A} (r : result A) : M A := ([], r).

Definition bind {A B} (m : M A) (k : A -> M B) : M B :=
  match m with
  | (tr, Ok a) => let '(tr', r) := k a in (tr ++ tr', r)
  | (tr, Raise e) => (tr, Raise e)
  end.

Notation "'let*' x ':=' m 'in' k" := (bind m (fun x => k))
  (at level 10, x pattern, m at level 200, k at level 200).
Notation "m ;;; k" := (bind m (fun _ => k))
  (at level 100, right associativity).

(** The API client a command instance is given. *)
Inductive client : Type :=
| ComputeClient (url token : value)
| ImagesClient (url token : value).

(** A command instance with what the dispatcher injects into it. *)
Record instance : Type := mkinst {
  class : cls;
  config : KConfig.t;
  options : Optparse.values;
  client_ : option client
}.

(** What lies outside the program: the command line, the persisted
    configuration (or the message of the [ConfigError] raised on reading
    it), and what the body of a command's [main] does once its arguments
    are bound (it talks to the remote service). *)
Record env : Type := mkenv {
  argv : list string;
  stored : string + gmap string value;
  body : instance -> list string -> M value
}.

Definition CONFIG_DEFAULTS : list (string * value) :=
  [ ("apis", VStr "nova synnefo glance plankton");
    ("token", VStr "");
    ("compute_url", VStr "https://okeanos.grnet.gr/api/v1");
    ("images_url", VStr "https://okeanos.grnet.gr/plankton") ].

Definition print_groups (groups : list value) : list event :=
  [Out ""; Out "Groups:"] ++ map (fun g => Out ("  " +:+ str g)) groups.

(** The header is printed before [_commands[group]] is looked up. *)
Definition print_commands (_commands : registry) (group : value) (commands : list value)
    : M unit :=
  tell [Out ""; Out "Commands:"] ;;;
  match OrderedDict.get _commands group with
  | None => raise (KeyError (str group))
  | Some cmds =>
      tell (flat_map (fun nc =>
              if bool_decide (fst nc ∈ commands)
              then [Out ("  " +:+ ljust 10 (str (fst nc)) +:+ " " +:+ str (description (snd nc)))]
              else [])
            (OrderedDict.items cmds))
  end.

(** [parser.print_help()]. To expand [%prog] in the usage optparse reads
    [os.path.basename(sys.argv[0])], which raises [IndexError] when
    [sys.argv] is empty; the text is built before any of it is written. *)
Definition print_help (e : env) (parser : Optparse.t) : M unit :=
  match argv e with
  | [] => raise (IndexError "list index out of range")
  | _ :: _ => tell [PrintHelp parser]
  end.

(** [cls.api is None or cls.api in apis]. *)
Definition visible (apis : list string) (c : cls) : bool :=
  is_none (api c) || bool_decide (api c ∈ map VStr apis).

(** The groups with at least one visible command, in registry order. *)
Definition available_groups (_commands : registry) (apis : list string) : list value :=
  flat_map (fun gc => if existsb (fun nc => visible apis (snd nc)) (OrderedDict.items (snd gc))
                      then [fst gc] else [])
           (OrderedDict.items _commands).

(** The visible commands of a group, in registry order. *)
Definition available_commands (cmds : OrderedDict.t value cls) (apis : list string) : list value :=
  flat_map (fun nc => if visible apis (snd nc) then [fst nc] else [])
           (OrderedDict.items cmds).

Definition global_parser : Optparse.t :=
  {| Optparse.usage := "%prog <group> <command> [options]";
     Optparse.epilog := VNone;
     Optparse.option_list :=
       [ Optparse.mkopt "--help" "help" Optparse.store_true (Some (VBool false));
         Optparse.mkopt "--api" "apis" Optparse.append None;
         Optparse.mkopt "--compute-url" "compute_url" Optparse.store None;
         Optparse.mkopt "--images-url" "images_url" Optparse.store None;
         Optparse.mkopt "--token" "token" Optparse.store None;
         Optparse.mkopt "-v" "verbose" Optparse.store_true (Some (VBool false));
         Optparse.mkopt "-d" "debug" Optparse.store_true (Some (VBool false)) ];
     Optparse.error_silenced := false |}.

(** The parser as the preliminary parsing uses it: [parser.error]
    silenced. *)
Definition preliminary : Optparse.t := Optparse.set_error global_parser true.

(** The option [--api], and the command line [--api a1 --api a2 ...]. *)
Definition api_option : Optparse.option_ := Optparse.mkopt "--api" "apis" Optparse.append None.
Definition api_flags (apis : list string) : list string :=
  flat_map (fun a => ["--api"; a]) apis.

(** [for key in CONFIG_DEFAULTS: config.override(key, getattr(options, key))]. *)
Definition apply_overrides (config : KConfig.t) (options : Optparse.values) : result KConfig.t :=
  fold_left
    (fun (acc : result KConfig.t) (kv : string * value) =>
       match acc with
       | Raise e => Raise e
       | Ok c =>
           match Optparse.getattr options (fst kv) with
           | Ok v => Ok (KConfig.override c (fst kv) v)
           | Raise e => Raise e
           end
       end)
    CONFIG_DEFAULTS (Ok config).

(** [cmd.main] applied to the unpacked [actual]: Python first binds the arguments to the
    parameters after the receiver, and raises [TypeError] when their
    number does not fit; only then does the body run. *)
Definition accepts (spec : argspec) (n : nat) : bool :=
  let params := length (args spec) - 1 in
  let ndefaults := length (match defaults spec with Some d => d | None => [] end) in
  (Nat.leb (params - ndefaults) n && Nat.leb n params)%bool.

Definition call_main (e : env) (cmd : instance) (actual : list string) : M value :=
  if accepts (main_spec (def (class cmd))) (length actual)
  then body e cmd actual
  else raise TypeError.

(** Lines 540-648 of [main]: everything up to the command instance.
    The result is either the value [main] returns early, or the parser,
    the instance and the positional arguments ready for the call. *)
Definition resolve (_commands : registry) (e : env)
    : M (value + (Optparse.t * instance * list string)) :=
  let parser := global_parser in
  (* preliminary parsing, errors ignored *)
  let* (options, args) := lift (Optparse.parse_args (Optparse.set_error parser true) (argv e)) in
  let* debug := lift (Optparse.getattr options "debug") in
  let* verbose := lift (Optparse.getattr options "verbose") in
  tell [SetLevel (if truthy debug then DEBUG else if truthy verbose then INFO else WARNING)] ;;;
  match stored e with
  | inl msg => tell [Log ERROR msg] ;;; ret (inl (VInt 1))
  | inr persisted =>
      let config := KConfig.mk (list_to_map CONFIG_DEFAULTS) persisted ∅ in
      let* config := lift (apply_overrides config options) in
      let* apis := lift (call_split (KConfig.get config "apis")) in
      let groups := available_groups _commands apis in
      match args with
      | [] | [_] =>
          print_help e parser ;;; tell (print_groups groups) ;;; ret (inl (VInt 0))
      | _ :: group :: rest =>
          let group := VStr group in
          if negb (bool_decide (group ∈ groups))
          then print_help e parser ;;; tell (print_groups groups) ;;; ret (inl (VInt 1))
          else
            match OrderedDict.get _commands group with
            | None => raise (KeyError (str group))
            | Some cmds =>
                let commands := available_commands cmds apis in
                let parser :=
                  Optparse.set_usage parser ("%prog " +:+ str group +:+ " <command> [options]") in
                match rest with
                | [] =>
                    print_help e parser ;;;
                    print_commands _commands group commands ;;; ret (inl (VInt 0))
                | name :: _ =>
                    let name := VStr name in
                    if negb (bool_decide (name ∈ commands))
                    then print_help e parser ;;;
                         print_commands _commands group commands ;;; ret (inl (VInt 1))
                    else
                      match OrderedDict.get cmds name with
                      | None => raise (KeyError (str name))
                      | Some cls =>
                          let syntax :=
                            if truthy (syntax cls) then str (syntax cls) +:+ " [options]"
                            else "[options]" in
                          let parser :=
                            Optparse.set_epilog
                              (Optparse.set_usage parser
                                 ("%prog " +:+ str group +:+ " " +:+ str name +:+ " " +:+ syntax))
                              (VStr "") in
                          let parser :=
                            match update_parser (def cls) with
                            | Some f => f parser
                            | None => parser
                            end in
                          let* (options, args) := lift (Optparse.parse_args parser (argv e)) in
                          let* help := lift (Optparse.getattr options "help") in
                          if truthy help
                          then print_help e parser ;;; ret (inl (VInt 0))
                          else
                            let client :=
                              if bool_decide (api cls ∈ [VStr "nova"; VStr "synnefo"])
                              then Some (ComputeClient (KConfig.get config "compute_url")
                                                       (KConfig.get config "token"))
                              else if bool_decide (api cls ∈ [VStr "glance"; VStr "plankton"])
                              then Some (ImagesClient (KConfig.get config "images_url")
                                                      (KConfig.get config "token"))
                              else None in
                            ret (inr (parser, mkinst cls config options client, args))
                      end
                end
            end
      end
  end.

(** Lines 650-658: the call of the handler and its two [except] clauses. *)
Definition invoke (e : env) (parser : Optparse.t) (cmd : instance) (args : list string)
    : M value :=
  match call_main e cmd (slice_from args 3) with
  | (tr, Raise TypeError) =>
      let '(tr', r) := (print_help e parser ;;; ret (VInt 1)) in (tr ++ tr', r)
  | (tr, Raise (ClientError message _ details)) =>
      (tr ++ [Log ERROR message; Log INFO details], Ok (VInt 2))
  | (tr, r) => (tr, r)
  end.

Definition main (_commands : registry) (e : env) : M value :=
  let* r := resolve _commands e in
  match r with
  | inl v => ret v
  | inr (parser, cmd, args) => invoke e parser cmd args
  end.

(** [err = main() or 0; sys.exit(err)]: the status the process ends with.
    An exception that leaves [main] ends the interpreter with status 1,
    [SystemExit] with its own code. *)
Definition exit_status (r : result value) : Z :=
  match r with
  | Ok v =>
      match or_ v (VInt 0) with
      | VInt n => n
      | VBool b => if b then 1 else 0
      | VNone => 0
      | _ => 1
      end
  | Raise (SystemExit c) => c
  | Raise _ => 1
  end.

Definition run (e : env) : list event * Z :=
  let '(tr, r) := main _commands e in (tr, exit_status r).

(** *** Notions used to describe the registry and the dispatcher *)

(** The exceptions with which the parsing of the command line ends. *)
Definition parse_failure (ex : exn) : Prop :=
  ex = SystemExit 2 ∨ ex = UnboundLocalError "value" ∨ ∃ msg, ex = AttributeError msg.

(** The elements of a list in the order of their first occurrence. *)
Definition first_seen {A} `{EqDecision A} (l : list A) : list A :=
  rev (remove_dups (rev l)).

(** [_commands[g][n]], if there is one. *)
Definition find (reg : registry) (g n : value) : option cls :=
  match OrderedDict.get reg g with
  | Some cmds => OrderedDict.get cmds n
  | None => None
  end.

(** The commands of a group; none for a group that is not there. *)
Definition commands_of (reg : registry) (g : value) : OrderedDict.t value cls :=
  default [] (OrderedDict.get reg g).

(** The line that [print_commands] prints for a command. *)
Definition command_line (nc : value * cls) : event :=
  Out ("  " +:+ ljust 10 (str (fst nc)) +:+ " " +:+ str (description (snd nc))).

End Cli.

(** ** kamaki/clients/storage.py: the object-storage client *)

Module Storage.
Import Py.

(** An HTTP request as the client methods describe it: the verb, the
    path, the keyword arguments and the accepted status codes. *)
Record request : Type := mkreq {
  verb : string;
  rpath : string;
  params : list (string * string);
  meta : option (gmap string string);
  rheaders : option (gmap string string);
  data : option string;
  directory : bool;
  raw_ : bool;
  success : list Z
}.

Record response : Type := mkresp {
  status_code : Z;
  headers : gmap string string;
  json : string;
  raw : string
}.

(** What storage.py imports and calls without defining: the helpers of
    [.utils], two built-ins, and the remote service that answers a
    request given the requests it has seen so far. *)
Class Collaborators : Type := {
  path4url : list value -> string;
  prefix_keys : gmap string string -> string -> gmap string string;
  filter_in : gmap string string -> string -> gmap string string;
  filter_out : gmap string string -> string -> bool -> gmap string string;
  unicode : gmap string string -> string;
  int_ : string -> option Z;
  service : list request -> request -> response;
  failure : response -> string * string
}.

Record StorageClient : Type := mkclient {
  base_url : string;
  token : string;
  account : value;
  container : value
}.

(** [StorageClient(base_url, token, account=None, container=None)]. *)
Definition __init__ (base_url token : string) (account container : option value)
    : StorageClient :=
  mkclient base_url token (default VNone account) (default VNone container).

(** The client, the requests that went over the wire, the lines printed. *)
Record world : Type := mkworld {
  self : StorageClient;
  sent : list request;
  printed : list string
}.

Definition S (A : Type) : Type := world -> world * result A.

Definition ret {A} (a : A) : S A := fun w => (w, Ok a).
Definition raise {A} (e : exn) : S A := fun w => (w, Raise e).
Definition bind {A B} (m : S A) (k : A -> S B) : S B :=
  fun w => match m w with
           | (w', Ok a) => k a w'
           | (w', Raise e) => (w', Raise e)
           end.
Definition this : S StorageClient := fun w => (w, Ok (self w)).
Definition print (line : string) : S unit :=
  fun w => (mkworld (self w) (sent w) (printed w ++ [line]), Ok tt).

Notation "'do' x '<-' m ';' k" := (bind m (fun x => k))
  (at level 10, x pattern, m at level 200, k at level 200).
Notation "m '>>' k" := (bind m (fun _ => k))
  (at level 100, right associativity).

(** Modelled from the spec: the exception class [ClientError] is defined
    in kamaki/clients/__init__.py, not among the sources. It carries a
    short message, a status code and an optional details string; an
    omitted status is recorded as 0 and omitted details as the empty
    string. *)
Definition client_error (message : string) (status : option Z) (details : option string)
    : exn :=
  ClientError message (default 0%Z status) (default "" details).

Section client.
Context `{Collaborators}.

(** Modelled from the spec: the request methods of the base class
    [Client] (kamaki/clients/__init__.py, not among the sources). Each
    issues one HTTP call; a status outside the accepted ones becomes a
    [ClientError] with a message, that status and details taken from
    the response. *)
Definition perform (rq : request) : S response :=
  fun w =>
    let r := service (sent w) rq in
    let w' := mkworld (self w) (sent w ++ [rq]) (printed w) in
    if bool_decide (status_code r ∈ success rq) then (w', Ok r)
    else (w', Raise (client_error (fst (failure r)) (Some (status_code r))
                                  (Some (snd (failure r))))).

Definition blank (verb path : string) (success : list Z) : request :=
  mkreq verb path [] None None None false false success.

(** The verbs as the operations call them, with the keyword arguments
    each call site passes. *)
Definition head (path : string) (success : list Z) : S response :=
  perform (blank "HEAD" path success).
Definition delete (path : string) (success : list Z) : S response :=
  perform (blank "DELETE" path success).
Definition get (path : string) (params : list (string * string)) (raw : bool)
    (success : list Z) : S response :=
  perform (mkreq "GET" path params None None None false raw success).
Definition post (path : string) (meta headers : option (gmap string string))
    (success : list Z) : S response :=
  perform (mkreq "POST" path [] meta headers None false false success).
Definition put (path : string) (data : option string) (directory : bool)
    (success : list Z) : S response :=
  perform (mkreq "PUT" path [] None None data directory false success).

Definition assert_account : S unit :=
  do c <- this;
  if negb (truthy (account c)) then raise (client_error "Please provide an account" None None)
  else ret tt.

Definition assert_container : S unit :=
  assert_account >>
  do c <- this;
  if negb (truthy (container c)) then raise (client_error "Please provide a container" None None)
  else ret tt.

Definition get_account_info : S (gmap string string) :=
  assert_account >>
  do c <- this;
  let path := path4url [account c] in
  do r <- head path [204; 401]%Z;
  if (status_code r =? 401)%Z then raise (client_error "No authorization" None None)
  else ret (headers r).

Definition replace_account_meta (metapairs : gmap string string) : S unit :=
  assert_account >>
  do c <- this;
  let path := path4url [account c] in
  let meta := prefix_keys metapairs "X-Account-Meta-" in
  do _ <- post path (Some meta) None [202%Z];
  ret tt.

Definition delete_account_meta (metakey : string) : S unit :=
  do headers <- get_account_info;
  let new_headers := filter_out headers ("X-Account-Meta-" +:+ metakey) true in
  if Nat.eqb (size new_headers) (size headers)
  then raise (client_error ("X-Account-Meta-" +:+ metakey +:+ " not found") (Some 404%Z) None)
  else
    do c <- this;
    let path := path4url [account c] in
    do _ <- post path None (Some new_headers) [202%Z];
    ret tt.

Definition create_container (container : string) : S unit :=
  assert_account >>
  do c <- this;
  let path := path4url [account c; VStr container] in
  do r <- put path None false [201; 202]%Z;
  if (status_code r =? 202)%Z
  then raise (client_error "Container already exists" (Some (status_code r)) None)
  else ret tt.

Definition get_container_info (container : string) : S (gmap string string) :=
  assert_account >>
  do c <- this;
  let path := path4url [account c; VStr container] in
  do r <- head path [204; 404]%Z;
  if (status_code r =? 404)%Z
  then raise (client_error "Container does not exist" (Some (status_code r)) None)
  else ret (headers r).

Definition delete_container (container : string) : S unit :=
  assert_account >>
  do c <- this;
  let path := path4url [account c; VStr container] in
  do r <- delete path [204; 404; 409]%Z;
  if (status_code r =? 404)%Z
  then raise (client_error "Container does not exist" (Some (status_code r)) None)
  else if (status_code r =? 409)%Z
  then raise (client_error "Container is not empty" (Some (status_code r)) None)
  else ret tt.

Definition list_containers : S string :=
  assert_account >>
  do c <- this;
  let path := path4url [account c] in
  do r <- get path [("format", "json")] false [200; 204]%Z;
  ret (json r).

(** [f] is the content still to be read from the file object;
    [f.read(size)] with a negative size reads all of it. The parameters
    [hash_cb] and [upload_cb] are not used by the method. *)
Definition create_object (object f : string) (size : option Z) : S unit :=
  assert_container >>
  do c <- this;
  let path := path4url [account c; container c; VStr object] in
  let data := match size with
              | Some n => if (n <? 0)%Z then f else String.substring 0 (Z.to_nat n) f
              | None => f
              end in
  do _ <- put path (Some data) false [201%Z];
  ret tt.

Definition create_directory (object : string) : S unit :=
  assert_container >>
  do c <- this;
  let path := path4url [account c; container c; VStr object] in
  do _ <- put path (Some "") true [201%Z];
  ret tt.

Definition get_object_info (object : string) : S (gmap string string) :=
  assert_container >>
  do c <- this;
  let path := path4url [account c; container c; VStr object] in
  do r <- head path [200%Z];
  ret (headers r).

Definition get_object_meta (object : string) : S (gmap string string) :=
  do h <- get_object_info object;
  ret (filter_in h "X-Object-Meta-").

Definition delete_object_meta (metakey object : string) : S unit :=
  do headers <- get_object_info object;
  let new_headers := filter_out headers ("X-Object-Meta-" +:+ metakey) true in
  if Nat.eqb (size new_headers) (size headers)
  then raise (client_error ("X-Object-Meta-" +:+ metakey +:+ " not found") (Some 404%Z) None)
  else
    do c <- this;
    let path := path4url [account c; container c; VStr object] in
    print "HAVE WE BEEN OVER THIS?" >>
    print (unicode new_headers) >>
    print "HAVE WE BEEN OVER THIS?" >>
    do _ <- post path None (Some new_headers) [202%Z];
    ret tt.

Definition replace_object (metapairs : gmap string string) : S unit :=
  assert_container >>
  do c <- this;
  let path := path4url [account c; container c] in
  let meta := prefix_keys metapairs "X-Object-Meta-" in
  do _ <- post path (Some meta) None [202%Z];
  ret tt.

Definition get_object (object : string) : S (string * Z) :=
  assert_container >>
  do c <- this;
  let path := path4url [account c; container c; VStr object] in
  do r <- get path [] true [200%Z];
  match headers r !! "content-length" with
  | None => raise (KeyError "content-length")
  | Some len =>
      match int_ len with
      | None => raise (ValueError "invalid literal for int()")
      | Some size => ret (raw r, size)
      end
  end.

Definition delete_object (object : string) : S unit :=
  assert_container >>
  do c <- this;
  let path := path4url [account c; container c; VStr object] in
  do r <- delete path [204; 404]%Z;
  if (status_code r =? 404)%Z
  then raise (client_error ("Object " +:+ object +:+ " not found") (Some (status_code r)) None)
  else ret tt.

Definition list_objects : S string :=
  assert_container >>
  do c <- this;
  let path := path4url [account c; container c] in
  do r <- get path [("format", "json")] false [200; 204; 404]%Z;
  if (status_code r =? 404)%Z
  then raise (client_error ("Incorrect account (" +:+ str (account c) +:+ ") for that container")
                           (Some (status_code r)) None)
  else ret (json r).

Definition list_objects_in_path (path_prefix : string) : S string :=
  assert_container >>
  do c <- this;
  let path := path4url [account c; container c] in
  do r <- get path [("format", "json"); ("path", path_prefix)] false [200; 204; 404]%Z;
  if (status_code r =? 404)%Z
  then raise (client_error ("Incorrect account (" +:+ str (account c) +:+ ") for that container")
                           (Some (status_code r)) None)
  else ret (json r).

(** *** Every operation of the client, as one call *)

Inductive call : Type :=
| GetAccountInfo
| ReplaceAccountMeta (metapairs : gmap string string)
| DeleteAccountMeta (metakey : string)
| CreateContainer (container : string)
| GetContainerInfo (container : string)
| DeleteContainer (container : string)
| ListContainers
| CreateObject (object f : string) (size : option Z)
| CreateDirectory (object : string)
| GetObjectInfo (object : string)
| GetObjectMeta (object : string)
| DeleteObjectMeta (metakey object : string)
| ReplaceObject (metapairs : gmap string string)
| GetObject (object : string)
| DeleteObject (object : string)
| ListObjects
| ListObjectsInPath (path_prefix : string).

(** What a call returns. *)
Inductive returned : Type :=
| Nothing
| Headers (h : gmap string string)
| Json (j : string)
| Object (raw : string) (size : Z).

Definition fmap_ {A B} (f : A -> B) (m : S A) : S B := do a <- m; ret (f a).

Definition exec (c : call) : S returned :=
  match c with
  | GetAccountInfo => fmap_ Headers get_account_info
  | ReplaceAccountMeta m => fmap_ (fun _ => Nothing) (replace_account_meta m)
  | DeleteAccountMeta k => fmap_ (fun _ => Nothing) (delete_account_meta k)
  | CreateContainer c => fmap_ (fun _ => Nothing) (create_container c)
  | GetContainerInfo c => fmap_ Headers (get_container_info c)
  | DeleteContainer c => fmap_ (fun _ => Nothing) (delete_container c)
  | ListContainers => fmap_ Json list_containers
  | CreateObject o f sz => fmap_ (fun _ => Nothing) (create_object o f sz)
  | CreateDirectory o => fmap_ (fun _ => Nothing) (create_directory o)
  | GetObjectInfo o => fmap_ Headers (get_object_info o)
  | GetObjectMeta o => fmap_ Headers (get_object_meta o)
  | DeleteObjectMeta k o => fmap_ (fun _ => Nothing) (delete_object_meta k o)
  | ReplaceObject m => fmap_ (fun _ => Nothing) (replace_object m)
  | GetObject o => fmap_ (fun rs => Object (fst rs) (snd rs)) (get_object o)
  | DeleteObject o => fmap_ (fun _ => Nothing) (delete_object o)
  | ListObjects => fmap_ Json list_objects
  | ListObjectsInPath p => fmap_ Json (list_objects_in_path p)
  end.

(** The operations that work on [self.container]; every operation
    works on [self.account]. *)
Definition needs_container (c : call) : bool :=
  match c with
  | CreateObject _ _ _ | CreateDirectory _ | GetObjectInfo _ | GetObjectMeta _
  | DeleteObjectMeta _ _ | ReplaceObject _ | GetObject _ | DeleteObject _
  | ListObjects | ListObjectsInPath _ => true
  | _ => false
  end.
End client.

(** The operations that only read. *)
Definition read_only (c : call) : bool :=
  match c with
  | GetAccountInfo | GetContainerInfo _ | ListContainers | GetObjectInfo _
  | GetObjectMeta _ | GetObject _ | ListObjects | ListObjectsInPath _ => true
  | _ => false
  end.

(** The account is set, and so is the container where the operation
    works on one. *)
Definition ready (c : call) (w : world) : bool :=
  truthy (account (self w)) && (negb (needs_container c) || truthy (container (self w))).

End Storage.

(** ** Sample objects used to exercise the statements below *)

Module Sample.
Import Py.

(** A configuration file with a token and a section for one API. *)
Definition kamakirc : list (string * list (string * string)) :=
  [("global", [("Token", "abc")]); ("nova", [("url", "http://x")])].

(** [Config()] over that file. *)
Definition config : Config.t :=
  fst (Config.__init__ None ∅ (fun _ => Some kamakirc)).

(** The file on disk before a [write]. *)
Definition old_file : Config.file :=
  {| Config.content := "[global]" +:+ RawConfigParser.nl +:+ "token = abc" +:+ RawConfigParser.nl;
     Config.mode := 420 |}.

(** A handler [main(self, a, b=None)] and one with no parameter. *)
Definition spec_a_b : Cli.argspec := Cli.mkspec ["self"; "a"; "b"] (Some [VNone]).
Definition spec_none : Cli.argspec := Cli.mkspec ["self"] None.

(** A handler whose optional parameter has an underscore in its name. *)
Definition spec_a_b_c : Cli.argspec := Cli.mkspec ["self"; "a"; "b_c"] (Some [VNone]).

(** The class [server_list] of cli.py, and [sample_cmd_all] of
    test_cli.py. *)
Definition server_list : Cli.classdef :=
  Cli.plain "server_list" "list servers" [] None (Some Cli.detail_option).
Definition sample_cmd_all : Cli.classdef :=
  Cli.plain "sample_cmd_all" "test cmd all" [] None None.

(** A class whose name has no underscore. *)
Definition version : Cli.classdef := Cli.plain "version" "show version" [] None None.

(** Collaborators of the storage client that answer every request with
    204 and no content. *)
Definition offline : Storage.Collaborators :=
  {| Storage.path4url := fun parts => "/" +:+ join "/" (map str parts);
     Storage.prefix_keys := fun m _ => m;
     Storage.filter_in := fun m _ => m;
     Storage.filter_out := fun m _ _ => m;
     Storage.unicode := fun _ => "";
     Storage.int_ := fun _ => None;
     Storage.service := fun _ _ => Storage.mkresp 204 ∅ "" "";
     Storage.failure := fun _ => ("", "") |}.

(** A client that was given no account, and one with an account but no
    container. *)
Definition anonymous : Storage.world :=
  Storage.mkworld (Storage.__init__ "https://pithos" "t0k3n" None None) [] [].
Definition homeless : Storage.world :=
  Storage.mkworld (Storage.__init__ "https://pithos" "t0k3n" (Some (VStr "user")) None) [] [].

(** Runs of the dispatcher: nothing persisted, and a remote service
    that lets every command succeed silently, rejects it with a
    [ClientError], or makes its body trip over a [TypeError]. *)
Definition succeeds : Cli.instance -> list string -> Cli.M value :=
  fun _ _ => Cli.ret VNone.
Definition rejects : Cli.instance -> list string -> Cli.M value :=
  fun _ _ => Cli.raise (ClientError "itemNotFound: no such server" 404 "server 42").
Definition trips : Cli.instance -> list string -> Cli.M value :=
  fun _ _ => Cli.raise TypeError.

(** A service that answers only a detailed listing asked through a
    compute client. *)
Definition lists_details : Cli.instance -> list string -> Cli.M value :=
  fun cmd _ =>
    match Cli.options cmd !! "detail", Cli.client_ cmd with
    | Some (VBool true), Some (Cli.ComputeClient _ _) =>
        Cli.bind (Cli.tell [Cli.Out "1 my server"]) (fun _ => Cli.ret VNone)
    | _, _ => Cli.raise (OtherError "unexpected call")
    end.

Definition invocation (argv : list string) (body : Cli.instance -> list string -> Cli.M value)
    : Cli.env :=
  Cli.mkenv argv (inr ∅) body.

(** What [resolve] hands to the call of the handler, when it gets that
    far (the initial parser and an empty instance otherwise). *)
Definition resolved (e : Cli.env) : Optparse.t * Cli.instance * list string :=
  match snd (Cli.resolve Cli._commands e) with
  | Ok (inr x) => x
  | _ => (Cli.global_parser,
          Cli.mkinst (Cli.decorator VNone VNone VNone VNone VNone version)
                     (KConfig.mk ∅ ∅ ∅) ∅ None,
          [])
  end.

(** The same with only the images API enabled in the persisted
    configuration. *)
Definition images_only (argv : list string) : Cli.env :=
  Cli.mkenv argv (inr (<["apis" := VStr "glance plankton"]> ∅)) succeeds.

(** Three registrations in the group [server]: [list] for the compute
    API, [stats] for the synnefo extensions, [ls] for no API. *)
Definition servers : list Cli.cls :=
  [Cli.decorator (VStr "nova") VNone VNone VNone VNone server_list;
   Cli.decorator (VStr "synnefo") VNone (VStr "stats") VNone VNone server_list;
   Cli.decorator VNone VNone (VStr "ls") VNone VNone server_list].

(** A client with an account and a container, nothing sent yet, and
    collaborators whose service answers every request with the given
    status and no headers. *)
Definition tenant : Storage.world :=
  Storage.mkworld (Storage.__init__ "https://pithos" "t0k3n" (Some (VStr "user"))
                     (Some (VStr "pics"))) [] [].

Definition answering (status : Z) : Storage.Collaborators :=
  {| Storage.path4url := fun parts => "/" +:+ join "/" (map str parts);
     Storage.prefix_keys := fun m _ => m;
     Storage.filter_in := fun m _ => m;
     Storage.filter_out := fun m k _ => delete k m;
     Storage.unicode := fun _ => "";
     Storage.int_ := fun _ => None;
     Storage.service := fun _ _ => Storage.mkresp status ∅ "" "";
     Storage.failure := fun _ => ("", "") |}.

End Sample.

(** * Properties *)

Import Py.

(** ** Insertion-ordered dictionaries *)

Section ordered_dict.
Context {K V : Type} `{EqDecision K}.
Implicit Types (d : OrderedDict.t K V) (k : K) (v : V).

Lemma od_get_setitem_eq d k v :
  OrderedDict.get (OrderedDict.setitem d k v) k = Some v.
Proof.
  induction d as [|[k' v'] d IH]; simpl.
  - by rewrite decide_True.
  - destruct (decide (k' = k)) as [->|Hne]; simpl.
    + by rewrite decide_True.
    + by rewrite decide_False.
Qed.

Lemma od_get_setitem_ne d k k' v :
  k ≠ k' → OrderedDict.get (OrderedDict.setitem d k v) k' = OrderedDict.get d k'.
Proof.
  intros Hne. induction d as [|[k0 v0] d IH]; simpl.
  - by rewrite decide_False.
  - destruct (decide (k0 = k)) as [->|Hne0]; simpl.
    + by rewrite !decide_False.
    + destruct (decide (k0 = k')); [done | apply IH].
Qed.

Lemma od_contains_keys d k :
  OrderedDict.contains d k = true ↔ k ∈ OrderedDict.keys d.
Proof.
  unfold OrderedDict.contains, OrderedDict.keys.
  induction d as [|[k' v'] d IH]; simpl.
  - split; [done | intros Hin; inversion Hin].
  - destruct (decide (k' = k)) as [->|Hne].
    + split; [intros _; left | done].
    + rewrite IH. split; [by right | ].
      intros Hin. inversion Hin; subst; [done | assumption].
Qed.
End ordered_dict.

(** ** Configuration store *)

Section config.
Implicit Types (self : Config.t) (section option : string) (w : value).

(** What the parser answers is the persisted layer. *)
Lemma raw_get_persisted self section option :
  match RawConfigParser.get (Config.base self) section option with
  | Ok v => Config.persisted_layer self section option = Some v
  | Raise e =>
      Config.persisted_layer self section option = None
      ∧ (e = NoSectionError section ∨ e = NoOptionError option section)
  end.
Proof.
  unfold RawConfigParser.get, Config.persisted_layer, RawConfigParser.optionxform.
  destruct (OrderedDict.get _ section) as [sect|].
  - destruct (OrderedDict.get sect _); [done|].
    destruct (OrderedDict.get _ _); [done | eauto].
  - destruct (String.eqb section RawConfigParser.DEFAULTSECT); simpl; [|eauto].
    destruct (OrderedDict.get _ _); [done | eauto].
Qed.

(** [get] as the composition of the three layers. *)
Lemma get_layers self section option :
  Config.get self section option =
  Ok (match Config.override_layer self section option with
      | Some o => o
      | None =>
          match Config.persisted_layer self section option with
          | Some p => p
          | None => default VNone (Config.default_layer section option)
          end
      end).
Proof.
  unfold Config.get, Config.override_layer, Config.default_layer.
  pose proof (raw_get_persisted self section option) as Hraw.
  destruct (Config._overrides self !! section) as [d|]; simpl.
  - destruct (d !! option) as [v|]; simpl.
    + destruct v; simpl; try done.
      destruct (RawConfigParser.get _ _ _) as [v|e].
      * by rewrite Hraw.
      * destruct Hraw as [-> [-> | ->]]; by destruct (Config.DEFAULTS !! section).
    + destruct (RawConfigParser.get _ _ _) as [v|e].
      * by rewrite Hraw.
      * destruct Hraw as [-> [-> | ->]]; by destruct (Config.DEFAULTS !! section).
  - destruct (RawConfigParser.get _ _ _) as [v|e].
    + by rewrite Hraw.
    + destruct Hraw as [-> [-> | ->]]; by destruct (Config.DEFAULTS !! section).
Qed.

(** [set] leaves the run-time layer alone, whether it succeeds or raises. *)
Lemma set_overrides self section option w :
  Config._overrides (fst (Config.set self section option w)) = Config._overrides self.
Proof.
  unfold Config.set.
  destruct (negb _); [destruct (RawConfigParser.add_section _ _) as [b [|e]] | ]; simpl;
    try done; by destruct (RawConfigParser.set _ _ _ _).
Qed.

Lemma remove_option_overrides self section option :
  Config._overrides (fst (Config.remove_option self section option)) = Config._overrides self.
Proof.
  unfold Config.remove_option.
  destruct (RawConfigParser.remove_option _ _ _) as [b [?|e]]; [done|].
  by destruct e.
Qed.
End config.

(** C1. For every section and key, [Config.get] returns the run-time
    override O when one is set, otherwise the persisted value P when the
    section/key exists, otherwise the built-in default D when one is
    defined, otherwise the missing value; and after any later
    [set(section, key, w)] - whether it succeeds or raises - a set
    override O is still what [get] returns. *)
Theorem get_precedence (self : Config.t) (section option : string) :
  (∀ O, Config.override_layer self section option = Some O →
        Config.get self section option = Ok O)
  ∧ (∀ P, Config.override_layer self section option = None →
          Config.persisted_layer self section option = Some P →
          Config.get self section option = Ok P)
  ∧ (∀ D, Config.override_layer self section option = None →
          Config.persisted_layer self section option = None →
          Config.default_layer section option = Some D →
          Config.get self section option = Ok D)
  ∧ (Config.override_layer self section option = None →
     Config.persisted_layer self section option = None →
     Config.default_layer section option = None →
     Config.get self section option = Ok VNone)
  ∧ (∀ O w, Config.override_layer self section option = Some O →
            Config.get (fst (Config.set self section option w)) section option = Ok O).
Proof.
  repeat split.
  - intros O HO. by rewrite get_layers, HO.
  - intros P HO HP. by rewrite get_layers, HO, HP.
  - intros D HO HP HD. by rewrite get_layers, HO, HP, HD.
  - intros HO HP HD. by rewrite get_layers, HO, HP, HD.
  - intros O w HO. rewrite get_layers.
    unfold Config.override_layer in *. rewrite set_overrides.
    destruct (Config._overrides self !! section) as [d|]; [|done].
    destruct (d !! option) as [v|]; [|done].
    destruct (is_none v); [done|]. by inversion HO.
Qed.

(** The precedence on a concrete store: default "on" for colors, the
    file's token "abc" shadowing the default, an override "O" shadowing
    both and surviving a later [set]. *)
Lemma get_precedence_witness :
  let c := Config.override Sample.config "global" "token" (VStr "O") in
  Config.get c "global" "token" = Ok (VStr "O")
  ∧ Config.get Sample.config "global" "token" = Ok (VStr "abc")
  ∧ Config.get Sample.config "global" "colors" = Ok (VStr "on")
  ∧ Config.get Sample.config "global" "nothing" = Ok VNone
  ∧ Config.get (fst (Config.remove_option Sample.config "global" "colors")) "global" "colors"
    = Ok (VStr "on")
  ∧ Config.get (fst (Config.set c "global" "token" (VStr "w"))) "global" "token" = Ok (VStr "O").
Proof.
  intros c.
  destruct (get_precedence (fst (Config.remove_option Sample.config "global" "colors"))
              "global" "colors") as (_ & _ & H6 & _).
  destruct (get_precedence c "global" "token") as (H1 & _ & _ & _ & H5).
  destruct (get_precedence Sample.config "global" "token") as (_ & H2 & _).
  destruct (get_precedence Sample.config "global" "colors") as (_ & H3 & _).
  destruct (get_precedence Sample.config "global" "nothing") as (_ & _ & _ & H4 & _).
  split; [apply H1; reflexivity|].
  split; [apply H2; reflexivity|].
  split; [apply H3; reflexivity|].
  split; [apply H4; reflexivity|].
  split; [apply H6; reflexivity|].
  apply H5; reflexivity.
Defined.



(** ** Writing the configuration file *)

Lemma string_app_cons (a : ascii) (s t : string) : String a s +:+ t = String a (s +:+ t).
Proof. reflexivity. Qed.

Lemma string_app_nil_r (s : string) : s +:+ "" = s.
Proof. induction s as [|a s IH]; [done|]. by rewrite string_app_cons, IH. Qed.

Lemma string_app_assoc (s t u : string) : (s +:+ t) +:+ u = s +:+ (t +:+ u).
Proof. induction s as [|a s IH]; [done|]. by rewrite !string_app_cons, IH. Qed.

Lemma concat_nil_cons (x : string) (l : list string) :
  String.concat "" (x :: l) = x +:+ String.concat "" l.
Proof. destruct l; simpl; [by rewrite string_app_nil_r | done]. Qed.

(** A run of [f.write] calls, cut after [k] of them (the closing of the
    file comes last): the file holds what was there plus the strings
    written so far. *)
Lemma run_take_writes (chunks : list string) (k : nat) (c : string) (m : Z) :
  Config.run (take k (map Config.FWrite chunks ++ [Config.Close])) (Some (Config.mkfile c m))
  = Some (Config.mkfile (c +:+ String.concat "" (take k chunks)) m).
Proof.
  revert k c. induction chunks as [|x chunks IH]; intros k c.
  - destruct k as [|k]; simpl; rewrite ?take_nil; simpl; by rewrite string_app_nil_r.
  - destruct k as [|k]; [simpl; by rewrite string_app_nil_r|].
    change (take (S k) (x :: chunks)) with (x :: take k chunks).
    rewrite concat_nil_cons, <- string_app_assoc. apply (IH k (c +:+ x)).
Qed.

Lemma concat_take_drop (chunks : list string) (k : nat) :
  String.concat "" chunks
  = String.concat "" (take k chunks) +:+ String.concat "" (drop k chunks).
Proof.
  revert k. induction chunks as [|x chunks IH]; intros [|k]; try done.
  change (take (S k) (x :: chunks)) with (x :: take k chunks).
  change (drop (S k) (x :: chunks)) with (drop k chunks).
  by rewrite !concat_nil_cons, string_app_assoc, <- IH.
Qed.

(** C8, as stated, fails: cut right after the file is opened for writing,
    the old content is gone. *)
Lemma write_not_atomic : ¬ Config.survives_interruption Sample.config.
Proof.
  intros Hsafe.
  specialize (Hsafe 1 Sample.old_file).
  assert (Hlt : 1 < length (Config.write Sample.config)) by (vm_compute; lia).
  specialize (Hsafe Hlt). vm_compute in Hsafe. discriminate Hsafe.
Qed.

(** C8, amended. [write] opens the file for writing (creating or
    truncating it), restricts its mode to 0600 before anything is written
    and then writes the header and the configuration in place. A
    completed write leaves exactly the new text, readable and writable by
    the owner only. An interrupted one leaves a prefix of the new text:
    the previous content is discarded as soon as the file is opened. *)
Theorem write_in_place (self : Config.t) (f : option Config.file) :
  Config.run (Config.write self) f
  = Some {| Config.content := Config.written self; Config.mode := 384 |}
  ∧ ∀ n : nat, (1 ≤ n)%nat →
      ∃ c m rest,
        Config.run (Config.interrupted self n) f
        = Some {| Config.content := c; Config.mode := m |}
        ∧ Config.written self = c +:+ rest
        ∧ ((2 ≤ n)%nat → m = 384%Z).
Proof.
  set (body := RawConfigParser.write (Config.base self)).
  set (m0 := match f with Some old => Config.mode old | None => Config.creation_mode end).
  assert (Hopen : Config.exec Config.OpenW f = Some (Config.mkfile "" m0)).
  { by destruct f. }
  assert (Hcut : ∀ k,
    Config.run (take (S (S k)) (Config.write self)) f
    = Some (Config.mkfile (String.concat "" (take k (lstrip Config.HEADER :: body))) 384)).
  { intros k. unfold Config.write. fold body.
    destruct f as [old|];
      exact (run_take_writes (lstrip Config.HEADER :: body) k "" 384). }
  split.
  - specialize (Hcut (S (S (length body)))).
    rewrite take_ge in Hcut.
    2:{ unfold Config.write. fold body. simpl. rewrite length_app, length_map. simpl. lia. }
    rewrite Hcut. rewrite take_ge by (simpl; lia).
    by rewrite concat_nil_cons.
  - intros n Hn. destruct n as [|[|k]]; [lia | |].
    + exists "", m0, (Config.written self). split; [|split; [done | lia]].
      unfold Config.interrupted, Config.write. simpl. by destruct f.
    + eexists _, _, _. split; [apply Hcut|]. split; [|done].
      unfold Config.written. fold body. rewrite <- concat_nil_cons.
      apply concat_take_drop.
Qed.

(** On the sample store and file: the complete write, and the write cut
    after three steps (opened, mode set, header written). *)
Lemma write_in_place_witness :
  Config.run (Config.write Sample.config) (Some Sample.old_file)
  = Some {| Config.content := Config.written Sample.config; Config.mode := 384 |}
  ∧ ∃ c m rest,
      Config.run (Config.interrupted Sample.config 3) (Some Sample.old_file)
      = Some {| Config.content := c; Config.mode := m |}
      ∧ Config.written Sample.config = c +:+ rest
      ∧ ((2 ≤ 3)%nat → m = 384%Z).
Proof.
  split.
  - exact (proj1 (write_in_place Sample.config (Some Sample.old_file))).
  - apply (proj2 (write_in_place Sample.config (Some Sample.old_file)) 3). lia.
Defined.

(** ** Strings *)

Lemma partition_found (c : ascii) (p r : string) :
  has_char c p = false →
  partition c (p +:+ String c r) = (p, String c EmptyString, r).
Proof.
  induction p as [|x p IH]; simpl; intros Hp.
  - change ("" +:+ String c r) with (String c r). simpl. by rewrite Ascii.eqb_refl.
  - apply orb_false_iff in Hp as [Hx Hp].
    rewrite Hx, (IH Hp). done.
Qed.

Lemma partition_absent (c : ascii) (s : string) :
  has_char c s = false → partition c s = (s, EmptyString, EmptyString).
Proof.
  induction s as [|x s IH]; simpl; intros Hs; [done|].
  apply orb_false_iff in Hs as [Hx Hs]. by rewrite Hx, (IH Hs).
Qed.

Lemma join_cons2 (sep x y : string) (l : list string) :
  join sep (x :: y :: l) = x +:+ sep +:+ join sep (y :: l).
Proof. reflexivity. Qed.

Lemma join_app (sep : string) (A B : list string) :
  A ≠ [] → B ≠ [] → join sep (A ++ B) = join sep A +:+ sep +:+ join sep B.
Proof.
  intros HA HB. induction A as [|x A IH]; [done|].
  destruct A as [|y A].
  - destruct B as [|b B]; [done|]. reflexivity.
  - change ((x :: y :: A) ++ B) with (x :: y :: (A ++ B)).
    rewrite !join_cons2.
    change (y :: A ++ B) with ((y :: A) ++ B).
    rewrite IH by done. by rewrite !string_app_assoc.
Qed.

Lemma join_nonempty (sep : string) (A : list string) :
  A ≠ [] → Forall (fun x => x ≠ "") A → join sep A ≠ "".
Proof.
  intros HA Hall. destruct A as [|x A]; [done|].
  apply Forall_cons in Hall as [Hx _].
  destruct x as [|a x]; [done|].
  destruct A; [done|]. rewrite join_cons2, string_app_cons. done.
Qed.

(** Joining the two joined halves, the empty ones left out, is joining
    all the items at once. *)
Lemma join_halves (A B : list string) :
  Forall (fun x => x ≠ "") A → Forall (fun x => x ≠ "") B →
  join " " (filter (fun x => x ≠ "") [join " " A; join " " B]) = join " " (A ++ B).
Proof.
  intros HA HB.
  destruct A as [|a A], B as [|b B].
  - reflexivity.
  - change (join " " []) with "".
    rewrite filter_cons, decide_False by (intros Hne; by apply Hne).
    rewrite filter_cons, decide_True by (by apply join_nonempty).
    done.
  - change (join " " []) with "".
    rewrite filter_cons, decide_True by (by apply join_nonempty).
    rewrite filter_cons, decide_False by (intros Hne; by apply Hne).
    by rewrite List.app_nil_r.
  - rewrite filter_cons, decide_True by (by apply join_nonempty).
    rewrite filter_cons, decide_True by (by apply join_nonempty).
    rewrite join_app by done. reflexivity.
Qed.

(** ** The command decorator *)

Lemma slice_receiver {A} (receiver : A) (l : list A) : Cli.slice_from (receiver :: l) 1 = l.
Proof.
  unfold Cli.slice_from, Cli.slice_index. simpl length.
  replace (Z.to_nat _) with 1%nat; [done|].
  change (1 <? 0)%Z with false. simpl. lia.
Qed.

Lemma slice_index_app {A} (req opt : list A) :
  Cli.slice_index (req ++ opt) (Z.of_nat (length (req ++ opt)) - Z.of_nat (length opt))
  = length req.
Proof.
  unfold Cli.slice_index. rewrite length_app.
  destruct (Z.ltb_spec (Z.of_nat (length req + length opt) - Z.of_nat (length opt)) 0); lia.
Qed.

(** C4, as stated, fails: an optional parameter has its underscores
    replaced by spaces too. *)
Lemma syntax_optional_underscore :
  Cli.generate_syntax Sample.spec_a_b_c ≠ Cli.syntax_as_specified ["a"] ["b_c"].
Proof. vm_compute. discriminate. Qed.

(** C4, amended. The syntax derived from a handler signature renders,
    the implicit receiver excluded, the parameters without a default
    first, in declared order, as [<name>], then the parameters with a
    default as [[name]], in both cases with the underscores of the name
    replaced by spaces, all joined by single spaces. A handler
    [(self, a, b=None)] yields ["<a> [b]"], a handler [(self)] the empty
    string. *)
Theorem syntax_of_signature (receiver : string) (required optional : list string)
    (defaults : option (list value)) :
  length (default [] defaults) = length optional →
  Cli.generate_syntax (Cli.mkspec (receiver :: required ++ optional) defaults)
  = Cli.syntax_amended required optional.
Proof.
  intros Hlen. unfold Cli.generate_syntax, Cli.syntax_amended. simpl Cli.args. simpl Cli.defaults.
  rewrite slice_receiver.
  replace (length match defaults with Some d => d | None => [] end) with (length optional)
    by (by destruct defaults).
  unfold Cli.slice_to, Cli.slice_from. rewrite slice_index_app.
  rewrite take_app_length, drop_app_length.
  apply join_halves; apply Forall_forall; intros x [y [-> _]]%list_elem_of_fmap; done.
Qed.

Lemma syntax_of_signature_witness :
  Cli.generate_syntax Sample.spec_a_b = "<a> [b]"
  ∧ Cli.generate_syntax Sample.spec_none = ""
  ∧ Cli.generate_syntax Sample.spec_a_b_c = "<a> [b c]".
Proof.
  split; [|split].
  - exact (syntax_of_signature "self" ["a"] ["b"] (Some [VNone]) eq_refl).
  - exact (syntax_of_signature "self" [] [] None eq_refl).
  - exact (syntax_of_signature "self" ["a"] ["b_c"] (Some [VNone]) eq_refl).
Defined.

(** Registration files the class under its group and its name. *)
Lemma register_lookup (reg : Cli.registry) (k : Cli.cls) :
  ∃ cmds, OrderedDict.get (Cli.register reg k) (Cli.group k) = Some cmds
          ∧ OrderedDict.get cmds (Cli.name k) = Some k.
Proof.
  unfold Cli.register, OrderedDict.contains.
  destruct (OrderedDict.get reg (Cli.group k)) as [cmds|] eqn:Hg; simpl.
  - rewrite Hg. eexists. split; apply od_get_setitem_eq.
  - rewrite od_get_setitem_eq. eexists. split; apply od_get_setitem_eq.
Qed.

(** The original reading of C5 fails for an explicit empty string:
    [@command(group='', name='')] on the class [server_list] files it
    under the derived group [server] and the derived name [list]. *)
Lemma explicit_empty_group_ignored :
  Cli.group (Cli.decorator VNone (VStr "") (VStr "") VNone VNone Sample.server_list) ≠ VStr ""
  ∧ Cli.name (Cli.decorator VNone (VStr "") (VStr "") VNone VNone Sample.server_list) ≠ VStr "".
Proof. split; vm_compute; discriminate. Qed.

(** C5, amended. For a command identifier with an underscore, the
    derived group is the part before the first underscore and the
    derived name the rest; for one without, the group is unset and the
    name is the whole identifier. A group or name given to the decorator
    takes precedence over the derived one when it is truthy (a
    non-empty string); one that is [None] or the empty string is
    ignored and the derived value is kept. The class is registered
    under the resulting group and name. *)
Theorem command_group_and_name (api group name description syntax : value)
    (c : Cli.classdef) (reg : Cli.registry) :
  (∀ prefix rest,
      has_char underscore prefix = false →
      Cli.__name__ c = prefix +:+ String underscore rest →
      Cli.group (Cli.decorator api VNone VNone description syntax c) = VStr prefix
      ∧ Cli.name (Cli.decorator api VNone VNone description syntax c) = VStr rest)
  ∧ (has_char underscore (Cli.__name__ c) = false →
      Cli.group (Cli.decorator api VNone VNone description syntax c) = VNone
      ∧ Cli.name (Cli.decorator api VNone VNone description syntax c) = VStr (Cli.__name__ c))
  ∧ (truthy group = true →
      Cli.group (Cli.decorator api group name description syntax c) = group)
  ∧ (truthy name = true →
      Cli.name (Cli.decorator api group name description syntax c) = name)
  ∧ (truthy group = false →
      Cli.group (Cli.decorator api group name description syntax c)
      = Cli.group (Cli.decorator api VNone VNone description syntax c))
  ∧ (truthy name = false →
      Cli.name (Cli.decorator api group name description syntax c)
      = Cli.name (Cli.decorator api VNone VNone description syntax c))
  ∧ Cli.group (Cli.decorator api group name description syntax c)
    = or_ group (Cli.group (Cli.decorator api VNone VNone description syntax c))
  ∧ Cli.name (Cli.decorator api group name description syntax c)
    = or_ name (Cli.name (Cli.decorator api VNone VNone description syntax c))
  ∧ (let '(k, reg') := Cli.command api group name description syntax c reg in
     ∃ cmds, OrderedDict.get reg' (Cli.group k) = Some cmds
             ∧ OrderedDict.get cmds (Cli.name k) = Some k).
Proof.
  assert (Hgroup : Cli.group (Cli.decorator api group name description syntax c)
                   = or_ group (Cli.group (Cli.decorator api VNone VNone description syntax c))).
  { unfold Cli.decorator.
    destruct (partition underscore (Cli.__name__ c)) as [[grp sep] cmd].
    by destruct (negb (truthy (VStr sep))). }
  assert (Hname : Cli.name (Cli.decorator api group name description syntax c)
                  = or_ name (Cli.name (Cli.decorator api VNone VNone description syntax c))).
  { unfold Cli.decorator.
    destruct (partition underscore (Cli.__name__ c)) as [[grp sep] cmd].
    by destruct (negb (truthy (VStr sep))). }
  split; [|split; [|split; [|split; [|split; [|split; [|split; [|split]]]]]]].
  - intros prefix rest Hp Hname'. unfold Cli.decorator.
    rewrite Hname', (partition_found _ _ _ Hp). simpl. split; [|done].
    unfold or_. simpl. done.
  - intros Hnone. unfold Cli.decorator.
    rewrite (partition_absent _ _ Hnone). simpl. done.
  - intros Hg. rewrite Hgroup. unfold or_. by rewrite Hg.
  - intros Hn. rewrite Hname. unfold or_. by rewrite Hn.
  - intros Hg. rewrite Hgroup. unfold or_. by rewrite Hg.
  - intros Hn. rewrite Hname. unfold or_. by rewrite Hn.
  - exact Hgroup.
  - exact Hname.
  - unfold Cli.command. apply register_lookup.
Qed.

(** [server_list] is [list] in group [server]; [sample_cmd_all] is
    [cmd_all] in group [sample] (the first underscore splits);
    [version] has no group; [@command(name='ls')] renames, and
    [@command(group='')] leaves the derived group. *)
Lemma command_group_and_name_witness :
  (Cli.group (Cli.decorator (VStr "nova") VNone VNone VNone VNone Sample.server_list) = VStr "server"
   ∧ Cli.name (Cli.decorator (VStr "nova") VNone VNone VNone VNone Sample.server_list) = VStr "list")
  ∧ (Cli.group (Cli.decorator VNone VNone VNone VNone VNone Sample.sample_cmd_all) = VStr "sample"
     ∧ Cli.name (Cli.decorator VNone VNone VNone VNone VNone Sample.sample_cmd_all) = VStr "cmd_all")
  ∧ (Cli.group (Cli.decorator VNone VNone VNone VNone VNone Sample.version) = VNone
     ∧ Cli.name (Cli.decorator VNone VNone VNone VNone VNone Sample.version) = VStr "version")
  ∧ Cli.name (Cli.decorator (VStr "nova") VNone (VStr "ls") VNone VNone Sample.server_list) = VStr "ls"
  ∧ Cli.group (Cli.decorator (VStr "nova") (VStr "") VNone VNone VNone Sample.server_list)
    = Cli.group (Cli.decorator (VStr "nova") VNone VNone VNone VNone Sample.server_list).
Proof.
  split; [|split; [|split; [|split]]].
  - apply (proj1 (command_group_and_name (VStr "nova") VNone VNone VNone VNone
                    Sample.server_list []) "server" "list"); reflexivity.
  - apply (proj1 (command_group_and_name VNone VNone VNone VNone VNone
                    Sample.sample_cmd_all []) "sample" "cmd_all"); reflexivity.
  - apply (proj1 (proj2 (command_group_and_name VNone VNone VNone VNone VNone
                           Sample.version []))); reflexivity.
  - apply (proj1 (proj2 (proj2 (proj2 (command_group_and_name (VStr "nova") VNone (VStr "ls")
                                         VNone VNone Sample.server_list []))))); reflexivity.
  - apply (proj1 (proj2 (proj2 (proj2 (proj2 (command_group_and_name (VStr "nova") (VStr "")
                                                VNone VNone VNone Sample.server_list [])))))).
    reflexivity.
Defined.

(** ** Visibility *)

Lemma elem_of_flat_map {A B} (f : A → list B) (l : list A) (x : B) :
  x ∈ flat_map f l ↔ ∃ y, y ∈ l ∧ x ∈ f y.
Proof.
  rewrite list_elem_of_In, in_flat_map. split.
  - intros (y & Hy & Hx). exists y. by rewrite !list_elem_of_In.
  - intros (y & Hy & Hx). exists y. by rewrite <- !list_elem_of_In.
Qed.

Lemma visible_iff (apis : list string) (c : Cli.cls) :
  Cli.visible apis c = true ↔ Cli.api c = VNone ∨ ∃ a, Cli.api c = VStr a ∧ a ∈ apis.
Proof.
  unfold Cli.visible. rewrite orb_true_iff, bool_decide_eq_true, list_elem_of_fmap.
  split.
  - intros [Hnone | (a & Ha & Hin)]; [left; by destruct (Cli.api c) | right; eauto].
  - intros [-> | (a & Ha & Hin)]; [by left | right; eauto].
Qed.

Lemma visible_mono (S T : list string) (c : Cli.cls) :
  S ⊆ T → Cli.visible S c = true → Cli.visible T c = true.
Proof.
  intros Hsub. rewrite !visible_iff.
  intros [Hnone | (a & Ha & Hin)]; [by left | right; eauto].
Qed.

Lemma available_commands_iff (cmds : OrderedDict.t value Cli.cls) (apis : list string) (n : value) :
  n ∈ Cli.available_commands cmds apis
  ↔ ∃ c, (n, c) ∈ OrderedDict.items cmds ∧ Cli.visible apis c = true.
Proof.
  unfold Cli.available_commands. rewrite elem_of_flat_map. split.
  - intros ([n' c] & Hin & Hn). simpl in Hn.
    destruct (Cli.visible apis c) eqn:Hv; [|by apply elem_of_nil in Hn].
    apply list_elem_of_singleton in Hn as ->. eauto.
  - intros (c & Hin & Hv). exists (n, c). split; [done|].
    simpl. rewrite Hv. by apply list_elem_of_singleton.
Qed.

Lemma available_groups_iff (reg : Cli.registry) (apis : list string) (g : value) :
  g ∈ Cli.available_groups reg apis
  ↔ ∃ cmds n c, (g, cmds) ∈ OrderedDict.items reg
                ∧ (n, c) ∈ OrderedDict.items cmds ∧ Cli.visible apis c = true.
Proof.
  unfold Cli.available_groups. rewrite elem_of_flat_map. split.
  - intros ([g' cmds] & Hin & Hg). simpl in Hg.
    destruct (existsb _ _) eqn:Hex; [|by apply elem_of_nil in Hg].
    apply list_elem_of_singleton in Hg as ->.
    apply existsb_exists in Hex as ([n c] & Hnc & Hv).
    exists cmds, n, c. split; [done|]. split; [by apply list_elem_of_In | done].
  - intros (cmds & n & c & Hin & Hnc & Hv). exists (g, cmds). split; [done|].
    simpl. replace (existsb _ _) with true; [by apply list_elem_of_singleton|].
    symmetry. apply existsb_exists. exists (n, c). split; [by apply list_elem_of_In | done].
Qed.

Lemma flat_map_filter {A B} (b : A → bool) (f : A → B) (l : list A) :
  flat_map (fun x => if b x then [f x] else []) l = map f (filter (fun x => b x = true) l).
Proof.
  induction l as [|x l IH]; simpl; [done|].
  rewrite filter_cons, IH. destruct (b x) eqn:Hb.
  - by rewrite decide_True.
  - by rewrite decide_False.
Qed.

(** C6. Visibility is monotonic in the enabled-API set: with S ⊆ T, a
    command visible under S is visible under T, and so is every group
    and every command name offered under S. A command is visible
    exactly when its api tag is absent or belongs to the enabled set;
    the commands offered for a group are exactly the names of its
    visible commands, and the groups offered exactly those that hold a
    visible command, both in registry order. *)
Theorem visibility_monotonic (reg : Cli.registry) (S T : list string) :
  S ⊆ T →
  (∀ c, Cli.visible S c = true → Cli.visible T c = true)
  ∧ (∀ g, g ∈ Cli.available_groups reg S → g ∈ Cli.available_groups reg T)
  ∧ (∀ cmds n, n ∈ Cli.available_commands cmds S → n ∈ Cli.available_commands cmds T)
  ∧ (∀ apis c, Cli.visible apis c = true
               ↔ Cli.api c = VNone ∨ ∃ a, Cli.api c = VStr a ∧ a ∈ apis)
  ∧ (∀ apis g, g ∈ Cli.available_groups reg apis
               ↔ ∃ cmds n c, (g, cmds) ∈ OrderedDict.items reg
                             ∧ (n, c) ∈ OrderedDict.items cmds
                             ∧ Cli.visible apis c = true)
  ∧ (∀ apis cmds n, n ∈ Cli.available_commands cmds apis
                    ↔ ∃ c, (n, c) ∈ OrderedDict.items cmds ∧ Cli.visible apis c = true)
  ∧ (∀ apis cmds,
       Cli.available_commands cmds apis
       = map fst (filter (fun nc => Cli.visible apis (snd nc) = true)
                         (OrderedDict.items cmds)))
  ∧ (∀ apis,
       Cli.available_groups reg apis
       = map fst (filter (fun gc => existsb (fun nc => Cli.visible apis (snd nc))
                                            (OrderedDict.items (snd gc)) = true)
                         (OrderedDict.items reg))).
Proof.
  intros Hsub. split; [|split; [|split; [|split; [|split; [|split; [|split]]]]]].
  - intros c. by apply visible_mono.
  - intros g. rewrite !available_groups_iff.
    intros (cmds & n & c & Hin & Hnc & Hv). exists cmds, n, c. eauto using visible_mono.
  - intros cmds n. rewrite !available_commands_iff.
    intros (c & Hin & Hv). exists c. eauto using visible_mono.
  - apply visible_iff.
  - intros apis g. apply available_groups_iff.
  - intros apis cmds n. apply available_commands_iff.
  - intros apis cmds.
    apply (flat_map_filter (fun nc => Cli.visible apis (snd nc)) fst).
  - intros apis.
    apply (flat_map_filter
             (fun gc => existsb (fun nc => Cli.visible apis (snd nc))
                                (OrderedDict.items (snd gc))) fst).
Qed.

(** With only [glance] enabled the groups are [config] and [glance];
    enabling [nova] as well keeps both and adds more. Of the group
    [server], no command is offered under [glance] alone, and the
    commands of the compute API, but not those of the synnefo
    extensions, are once [nova] is enabled. *)
Lemma visibility_monotonic_witness :
  VStr "glance" ∈ Cli.available_groups Cli._commands ["nova"; "glance"]
  ∧ VStr "config" ∈ Cli.available_groups Cli._commands ["nova"; "glance"]
  ∧ Cli.available_commands (Cli.commands_of Cli._commands (VStr "server")) ["glance"] = []
  ∧ Cli.available_commands (Cli.commands_of Cli._commands (VStr "server")) ["nova"; "glance"]
    = [VStr "list"; VStr "info"; VStr "create"; VStr "rename"; VStr "delete"; VStr "reboot";
       VStr "meta"; VStr "addmeta"; VStr "setmeta"; VStr "delmeta"].
Proof.
  assert (Hsub : ["glance"] ⊆ ["nova"; "glance"]).
  { intros x Hx. apply list_elem_of_singleton in Hx as ->. repeat constructor. }
  destruct (visibility_monotonic Cli._commands ["glance"] ["nova"; "glance"] Hsub)
    as (_ & Hgroups & _ & _ & _ & _ & Hcommands & _).
  split; [|split; [|split]].
  - apply Hgroups; vm_compute; repeat constructor.
  - apply Hgroups; vm_compute; repeat constructor.
  - exact (eq_trans (Hcommands ["glance"] _) eq_refl).
  - exact (eq_trans (Hcommands ["nova"; "glance"] _) eq_refl).
Defined.

(** ** Storage client *)

Section storage.
Context `{Storage.Collaborators}.

Lemma assert_account_fails (w : Storage.world) :
  truthy (Storage.account (Storage.self w)) = false →
  Storage.assert_account w
  = (w, Raise (Storage.client_error "Please provide an account" None None)).
Proof. intros Hacc. unfold Storage.assert_account, Storage.bind, Storage.this. by rewrite Hacc. Qed.

Lemma assert_container_fails_account (w : Storage.world) :
  truthy (Storage.account (Storage.self w)) = false →
  Storage.assert_container w
  = (w, Raise (Storage.client_error "Please provide an account" None None)).
Proof.
  intros Hacc. unfold Storage.assert_container, Storage.bind at 1.
  by rewrite assert_account_fails.
Qed.

Lemma assert_container_fails (w : Storage.world) :
  truthy (Storage.account (Storage.self w)) = true →
  truthy (Storage.container (Storage.self w)) = false →
  Storage.assert_container w
  = (w, Raise (Storage.client_error "Please provide a container" None None)).
Proof.
  intros Hacc Hcont.
  unfold Storage.assert_container, Storage.assert_account, Storage.bind, Storage.this.
  rewrite Hacc. simpl. by rewrite Hcont.
Qed.

(** An operation that starts with a failing step fails the same way and
    leaves the world where that step left it. *)
Lemma bind_raise {A B} (m : Storage.S A) (k : A → Storage.S B) (w w' : Storage.world) (e : exn) :
  m w = (w', Raise e) → Storage.bind m k w = (w', Raise e).
Proof. intros Hm. unfold Storage.bind. by rewrite Hm. Qed.

(** Walk down the leading steps of an operation to the assertion that
    fails. *)
Ltac raise_first Ha Hc :=
  first [ exact Ha | exact Hc | apply bind_raise; raise_first Ha Hc ].

(** C7. Every operation of the storage client raises [ClientError]
    before any HTTP request goes out, and leaves the client as it was,
    when [self.account] is unset or empty; the operations on
    [self.container] do the same when the account is set and
    [self.container] is unset or empty. *)
Theorem precondition_before_request (c : Storage.call) (w : Storage.world) :
  (truthy (Storage.account (Storage.self w)) = false →
     Storage.exec c w
     = (w, Raise (Storage.client_error "Please provide an account" None None)))
  ∧ (Storage.needs_container c = true →
     truthy (Storage.account (Storage.self w)) = true →
     truthy (Storage.container (Storage.self w)) = false →
     Storage.exec c w
     = (w, Raise (Storage.client_error "Please provide a container" None None))).
Proof.
  split.
  - intros Hacc.
    pose proof (assert_account_fails w Hacc) as Ha.
    pose proof (assert_container_fails_account w Hacc) as Hc.
    destruct c; unfold Storage.exec; raise_first Ha Hc.
  - intros Hneeds Hacc Hcont.
    pose proof (assert_container_fails w Hacc Hcont) as Hc.
    destruct c; try discriminate Hneeds; unfold Storage.exec; raise_first Hc Hc.
Qed.
End storage.

(** Listing objects without an account, and without a container: the
    error comes back, nothing was sent. *)
Lemma precondition_before_request_witness :
  @Storage.exec Sample.offline Storage.ListObjects Sample.anonymous
  = (Sample.anonymous, Raise (ClientError "Please provide an account" 0 ""))
  ∧ @Storage.exec Sample.offline Storage.ListObjects Sample.homeless
    = (Sample.homeless, Raise (ClientError "Please provide a container" 0 "")).
Proof.
  split.
  - apply (proj1 (@precondition_before_request Sample.offline Storage.ListObjects Sample.anonymous)).
    reflexivity.
  - apply (proj2 (@precondition_before_request Sample.offline Storage.ListObjects Sample.homeless));
      reflexivity.
Defined.

(** With both set the request goes out. *)
Example list_objects_sends :
  Storage.sent (fst (@Storage.exec Sample.offline Storage.ListObjects
                       (Storage.mkworld (Storage.__init__ "u" "t" (Some (VStr "user")) (Some (VStr "pics"))) [] [])))
  = [Storage.mkreq "GET" "/user/pics" [("format", "json")] None None None false false [200; 204; 404]%Z].
Proof. reflexivity. Qed.

(** ** The dispatcher *)

Lemma main_after_resolve (reg : Cli.registry) (e : Cli.env) (tr0 : list Cli.event)
    (p : Optparse.t) (cmd : Cli.instance) (args : list string) :
  Cli.resolve reg e = (tr0, Ok (inr (p, cmd, args))) →
  Cli.main reg e
  = (tr0 ++ fst (Cli.invoke e p cmd args), snd (Cli.invoke e p cmd args)).
Proof.
  intros Hres. unfold Cli.main, Cli.bind. rewrite Hres.
  by destruct (Cli.invoke e p cmd args).
Qed.

Lemma main_returns_early (reg : Cli.registry) (e : Cli.env) (tr0 : list Cli.event) (v : value) :
  Cli.resolve reg e = (tr0, Ok (inl v)) → Cli.main reg e = (tr0, Ok v).
Proof.
  intros Hres. unfold Cli.main, Cli.bind. rewrite Hres. simpl. by rewrite List.app_nil_r.
Qed.

(** Where a [TypeError] of the call comes from: the arguments do not fit
    the signature, or the body raised it. *)
Lemma call_main_type_error (e : Cli.env) (cmd : Cli.instance) (actual : list string)
    (tr : list Cli.event) :
  Cli.call_main e cmd actual = (tr, Raise TypeError)
  ↔ (Cli.accepts (Cli.main_spec (Cli.def (Cli.class cmd))) (length actual) = false ∧ tr = [])
    ∨ (Cli.accepts (Cli.main_spec (Cli.def (Cli.class cmd))) (length actual) = true
       ∧ Cli.body e cmd actual = (tr, Raise TypeError)).
Proof.
  unfold Cli.call_main. destruct (Cli.accepts _ _).
  - split; [by right | by intros [[? _] | [_ ?]]].
  - unfold Cli.raise. split.
    + intros [= <-]. by left.
    + intros [[_ ->] | [? _]]; done.
Qed.

(** Whenever [main] returns before the handler is called, it returns 0
    or 1. *)
Lemma early_return_codes (reg : Cli.registry) (e : Cli.env) (tr : list Cli.event) (v : value) :
  Cli.resolve reg e = (tr, Ok (inl v)) → v = VInt 0 ∨ v = VInt 1.
Proof.
  unfold Cli.resolve, Cli.print_commands, Cli.print_help,
    Cli.bind, Cli.lift, Cli.tell, Cli.ret, Cli.raise.
  repeat match goal with
         | |- context [match ?x with _ => _ end] =>
             lazymatch x with
             | context [match _ with _ => _ end] => fail
             | _ => destruct x eqn:?
             end
         end;
    intros [= <- <-] || intros [=]; auto.
Qed.

(** The handler is reached only on a command line that names a group
    and a command: [sys.argv] is not empty then. *)
Lemma handler_reached_argv (reg : Cli.registry) (e : Cli.env) (tr : list Cli.event)
    (x : Optparse.t * Cli.instance * list string) :
  Cli.resolve reg e = (tr, Ok (inr x)) → Cli.argv e ≠ [].
Proof.
  intros Hres Hargv. revert Hres.
  unfold Cli.resolve, Cli.print_commands, Cli.print_help,
    Cli.bind, Cli.lift, Cli.tell, Cli.ret, Cli.raise.
  rewrite Hargv.
  change (Optparse.parse_args (Optparse.set_error Cli.global_parser true) [])
    with (Ok (Optparse.get_default_values Cli.global_parser, @nil string)).
  cbv beta iota.
  repeat match goal with
         | |- context [match ?x with _ => _ end] =>
             lazymatch x with
             | context [match _ with _ => _ end] => fail
             | _ => destruct x eqn:?
             end
         end;
    intros [=].
Qed.

(** On a command line that is not empty the help is printed. *)
Lemma print_help_prints (e : Cli.env) (p : Optparse.t) :
  Cli.argv e ≠ [] → Cli.print_help e p = ([Cli.PrintHelp p], Ok tt).
Proof. unfold Cli.print_help. by destruct (Cli.argv e). Qed.

(** A handler that raises [ClientError]: the message is logged at error
    level, the details at info level, and [main] returns 2. *)
Lemma client_error_is_reported (reg : Cli.registry) (e : Cli.env) (tr0 tr : list Cli.event)
    (p : Optparse.t) (cmd : Cli.instance) (args : list string) (message details : string)
    (status : Z) :
  Cli.resolve reg e = (tr0, Ok (inr (p, cmd, args))) →
  Cli.call_main e cmd (Cli.slice_from args 3) = (tr, Raise (ClientError message status details)) →
  Cli.main reg e
  = (tr0 ++ tr ++ [Cli.Log Cli.ERROR message; Cli.Log Cli.INFO details], Ok (VInt 2)).
Proof.
  intros Hres Hcall. rewrite (main_after_resolve _ _ _ _ _ _ Hres).
  unfold Cli.invoke. by rewrite Hcall.
Qed.

(** A handler that returns: [main] returns what it returned. *)
Lemma handler_result_is_returned (reg : Cli.registry) (e : Cli.env) (tr0 tr : list Cli.event)
    (p : Optparse.t) (cmd : Cli.instance) (args : list string) (v : value) :
  Cli.resolve reg e = (tr0, Ok (inr (p, cmd, args))) →
  Cli.call_main e cmd (Cli.slice_from args 3) = (tr, Ok v) →
  Cli.main reg e = (tr0 ++ tr, Ok v).
Proof.
  intros Hres Hcall. rewrite (main_after_resolve _ _ _ _ _ _ Hres).
  unfold Cli.invoke. by rewrite Hcall.
Qed.

(** C9. Any [TypeError] that escapes the call of the handler - raised
    because the positional arguments do not fit the signature, or raised
    anywhere inside the handler's body - is reported as a usage error:
    help is printed, [main] returns 1 and the process exits with status
    1; the exception does not leave [main]. *)
Theorem type_error_is_usage_error (reg : Cli.registry) (e : Cli.env) (tr0 tr : list Cli.event)
    (p : Optparse.t) (cmd : Cli.instance) (args : list string) :
  Cli.resolve reg e = (tr0, Ok (inr (p, cmd, args))) →
  Cli.call_main e cmd (Cli.slice_from args 3) = (tr, Raise TypeError) →
  Cli.main reg e = (tr0 ++ tr ++ [Cli.PrintHelp p], Ok (VInt 1))
  ∧ Cli.exit_status (snd (Cli.main reg e)) = 1%Z
  ∧ ((Cli.accepts (Cli.main_spec (Cli.def (Cli.class cmd)))
                  (length (Cli.slice_from args 3)) = false ∧ tr = [])
     ∨ (Cli.accepts (Cli.main_spec (Cli.def (Cli.class cmd)))
                    (length (Cli.slice_from args 3)) = true
        ∧ Cli.body e cmd (Cli.slice_from args 3) = (tr, Raise TypeError))).
Proof.
  intros Hres Hcall.
  assert (Hmain : Cli.main reg e = (tr0 ++ tr ++ [Cli.PrintHelp p], Ok (VInt 1))).
  { rewrite (main_after_resolve _ _ _ _ _ _ Hres). unfold Cli.invoke. rewrite Hcall.
    by rewrite (print_help_prints e p (handler_reached_argv _ _ _ _ Hres)). }
  split; [exact Hmain|]. split; [by rewrite Hmain|].
  by apply call_main_type_error.
Qed.

(** [kamaki server info] lacks the server id; [kamaki server info 42]
    fits the signature but the body raises [TypeError]: both end with
    the help text and status 1. *)
Lemma type_error_is_usage_error_witness :
  (snd (Cli.main Cli._commands (Sample.invocation ["kamaki"; "server"; "info"] Sample.succeeds))
   = Ok (VInt 1)
   ∧ Cli.exit_status
       (snd (Cli.main Cli._commands (Sample.invocation ["kamaki"; "server"; "info"] Sample.succeeds)))
     = 1%Z)
  ∧ (snd (Cli.main Cli._commands (Sample.invocation ["kamaki"; "server"; "info"; "42"] Sample.trips))
     = Ok (VInt 1)
     ∧ Cli.exit_status
         (snd (Cli.main Cli._commands
                 (Sample.invocation ["kamaki"; "server"; "info"; "42"] Sample.trips)))
       = 1%Z).
Proof.
  assert (Huse : ∀ e,
    Cli.resolve Cli._commands e
    = (fst (Cli.resolve Cli._commands e),
       Ok (inr ((Sample.resolved e).1.1, (Sample.resolved e).1.2, (Sample.resolved e).2))) →
    Cli.call_main e (Sample.resolved e).1.2 (Cli.slice_from (Sample.resolved e).2 3)
    = ([], Raise TypeError) →
    snd (Cli.main Cli._commands e) = Ok (VInt 1)
    ∧ Cli.exit_status (snd (Cli.main Cli._commands e)) = 1%Z).
  { intros e Hres Hcall.
    destruct (type_error_is_usage_error _ _ _ _ _ _ _ Hres Hcall) as (Hmain & Hexit & _).
    split; [by rewrite Hmain | exact Hexit]. }
  split; apply Huse; vm_compute; reflexivity.
Defined.

(** ** The first pass over the command line *)

Lemma process_args_api (v : Optparse.values) (largs rest : list string) (a : string) :
  Optparse.process_args Cli.preliminary v largs ("--api" :: a :: rest)
  = match Optparse.take_action Cli.api_option a v with
    | Ok v' => Optparse.process_args Cli.preliminary v' largs rest
    | Raise e => (v, largs, rest, Some (Optparse.Fatal e))
    end.
Proof.
  change (Optparse.process_args Cli.preliminary v largs ("--api" :: a :: rest))
    with (match Optparse.process Cli.api_option a v true rest with
          | Optparse.Continue v' false =>
              Optparse.process_args Cli.preliminary v' largs (a :: rest)
          | Optparse.Continue v' true => Optparse.process_args Cli.preliminary v' largs rest
          | Optparse.Stop v' rargs' s => (v', largs, rargs', Some s)
          end).
  unfold Optparse.process. by destruct (Optparse.take_action Cli.api_option a v).
Qed.

Lemma process_args_positional (p : Optparse.t) (v : Optparse.values) (largs rest : list string) :
  Forall (fun a => String.prefix "-" a = false) rest →
  Optparse.process_args p v largs rest = (v, largs ++ rest, [], None).
Proof.
  intros Hpos. revert largs. induction Hpos as [|a rest Ha _ IH]; intros largs.
  - simpl. by rewrite List.app_nil_r.
  - assert (Hstep : Optparse.process_args p v largs (a :: rest)
                    = Optparse.process_args p v (largs ++ [a]) rest).
    { destruct a as [|c a]; [reflexivity|].
      destruct c as [[] [] [] [] [] [] [] []];
        first [reflexivity | exfalso; destruct a; vm_compute in Ha; discriminate Ha]. }
    rewrite Hstep, IH. by rewrite <- List.app_assoc.
Qed.

(** Repeated [--api] flags accumulate, in order, on top of what the
    option already holds. *)
Lemma api_flags_append (apis l0 : list string) (v : Optparse.values) (largs rest : list string) :
  v !! "apis" = Some (VList l0) →
  Optparse.process_args Cli.preliminary v largs (Cli.api_flags apis ++ rest)
  = Optparse.process_args Cli.preliminary (<["apis" := VList (l0 ++ apis)]> v) largs rest.
Proof.
  revert l0 v. induction apis as [|a apis IH]; intros l0 v Hv.
  - change (Cli.api_flags [] ++ rest) with rest.
    rewrite List.app_nil_r. by rewrite insert_id.
  - change (Cli.api_flags (a :: apis) ++ rest) with ("--api" :: a :: (Cli.api_flags apis ++ rest)).
    rewrite process_args_api. unfold Optparse.take_action. simpl. rewrite Hv.
    rewrite (IH (l0 ++ [a])) by apply lookup_insert_eq.
    by rewrite insert_insert_eq, <- List.app_assoc.
Qed.

Lemma api_flags_parse (apis positional : list string) :
  apis ≠ [] →
  Forall (fun a => String.prefix "-" a = false) positional →
  Optparse.parse_args Cli.preliminary ("kamaki" :: Cli.api_flags apis ++ positional)
  = Ok (<["apis" := VList apis]> (Optparse.get_default_values Cli.global_parser),
        "kamaki" :: positional).
Proof.
  intros Hne Hpos. destruct apis as [|a apis]; [done|].
  unfold Optparse.parse_args.
  change (Optparse.get_default_values Cli.preliminary)
    with (Optparse.get_default_values Cli.global_parser).
  set (dv := Optparse.get_default_values Cli.global_parser).
  change (Optparse.process_args Cli.preliminary dv [] ("kamaki" :: Cli.api_flags (a :: apis) ++ positional))
    with (Optparse.process_args Cli.preliminary dv ["kamaki"]
            ("--api" :: a :: (Cli.api_flags apis ++ positional))).
  rewrite process_args_api.
  change (Optparse.take_action Cli.api_option a dv) with (Ok (<["apis" := VList [a]]> dv)).
  cbv beta iota.
  rewrite (api_flags_append apis [a]) by apply lookup_insert_eq.
  rewrite insert_insert_eq, process_args_positional by done.
  by rewrite List.app_nil_r.
Qed.

(** C3, on the code. Repeated [--api] flags accumulate, in order, in the
    option [apis], and the dispatcher installs that list as the run-time
    override of the key [apis]; but it then calls [.split()] on what
    [config.get('apis')] returns, which is the list: with at least one
    [--api] flag the run ends in an [AttributeError] before any group or
    command is looked at. *)
Theorem api_flags_accumulate_then_fail (reg : Cli.registry) (apis positional : list string)
    (persisted : gmap string value) (body : Cli.instance → list string → Cli.M value) :
  apis ≠ [] →
  Forall (fun a => String.prefix "-" a = false) positional →
  let argv := "kamaki" :: Cli.api_flags apis ++ positional in
  Optparse.parse_args Cli.preliminary argv
  = Ok (<["apis" := VList apis]> (Optparse.get_default_values Cli.global_parser),
        "kamaki" :: positional)
  ∧ Cli.main reg (Cli.mkenv argv (inr persisted) body)
    = ([Cli.SetLevel Cli.WARNING],
       Raise (AttributeError "'list' object has no attribute 'split'")).
Proof.
  intros Hne Hpos argv.
  pose proof (api_flags_parse apis positional Hne Hpos) as Hparse.
  split; [exact Hparse|].
  unfold Cli.main, Cli.resolve.
  change (Optparse.set_error Cli.global_parser true) with Cli.preliminary.
  change (Cli.argv (Cli.mkenv argv (inr persisted) body)) with argv.
  unfold argv. rewrite Hparse.
  vm_compute. reflexivity.
Qed.

(** [kamaki --api nova --api glance server list]: both flags are
    collected, and the run fails. *)
Lemma api_flags_accumulate_then_fail_witness :
  Optparse.parse_args Cli.preliminary
    ["kamaki"; "--api"; "nova"; "--api"; "glance"; "server"; "list"]
  = Ok (<["apis" := VList ["nova"; "glance"]]> (Optparse.get_default_values Cli.global_parser),
        ["kamaki"; "server"; "list"])
  ∧ Cli.main Cli._commands
      (Sample.invocation ["kamaki"; "--api"; "nova"; "--api"; "glance"; "server"; "list"]
         Sample.succeeds)
    = ([Cli.SetLevel Cli.WARNING],
       Raise (AttributeError "'list' object has no attribute 'split'")).
Proof.
  apply (api_flags_accumulate_then_fail Cli._commands ["nova"; "glance"] ["server"; "list"]
           ∅ Sample.succeeds).
  - discriminate.
  - repeat constructor.
Defined.

(** C2, on the code. [kamaki --api nova] has no positional argument, so
    the help and the groups should be printed and the status be 0; the
    run ends in an [AttributeError] instead, nothing is printed and the
    interpreter exits with status 1. Without the flag the same command
    line prints the help and exits with 0. *)
Theorem no_arguments_with_api_flag (persisted : gmap string value)
    (body : Cli.instance → list string → Cli.M value) :
  Cli.run (Cli.mkenv ["kamaki"; "--api"; "nova"] (inr persisted) body)
  = ([Cli.SetLevel Cli.WARNING], 1%Z)
  ∧ snd (Cli.main Cli._commands (Cli.mkenv ["kamaki"; "--api"; "nova"] (inr persisted) body))
    = Raise (AttributeError "'list' object has no attribute 'split'")
  ∧ Cli.run (Cli.mkenv ["kamaki"] (inr ∅) body)
    = (Cli.SetLevel Cli.WARNING :: Cli.PrintHelp Cli.global_parser
         :: Cli.print_groups (Cli.available_groups Cli._commands
                                ["nova"; "synnefo"; "glance"; "plankton"]),
       0%Z).
Proof.
  split; [|split].
  - vm_compute. reflexivity.
  - vm_compute. reflexivity.
  - vm_compute. reflexivity.
Qed.

(** ** The dispatcher on whole command lines *)

Example run_no_arguments :
  snd (Cli.run (Sample.invocation ["kamaki"] Sample.succeeds)) = 0%Z.
Proof. vm_compute. reflexivity. Qed.

Example run_unknown_group :
  snd (Cli.run (Sample.invocation ["kamaki"; "bogus"] Sample.succeeds)) = 1%Z.
Proof. vm_compute. reflexivity. Qed.

Example run_invisible_group :
  snd (Cli.run (Sample.images_only ["kamaki"; "server"])) = 1%Z
  ∧ snd (Cli.run (Sample.images_only ["kamaki"; "glance"; "list"])) = 0%Z.
Proof. split; vm_compute; reflexivity. Qed.

Example run_group_without_command :
  snd (Cli.run (Sample.invocation ["kamaki"; "server"] Sample.succeeds)) = 0%Z.
Proof. vm_compute. reflexivity. Qed.

Example run_unknown_command :
  snd (Cli.run (Sample.invocation ["kamaki"; "server"; "bogus"] Sample.succeeds)) = 1%Z.
Proof. vm_compute. reflexivity. Qed.

Example run_help_for_command :
  snd (Cli.run (Sample.invocation ["kamaki"; "server"; "info"; "--help"] Sample.trips)) = 0%Z.
Proof. vm_compute. reflexivity. Qed.

Example run_detailed_listing :
  let '(tr, status) :=
    Cli.run (Sample.invocation ["kamaki"; "server"; "list"; "-l"] Sample.lists_details) in
  status = 0%Z ∧ last tr = Some (Cli.Out "1 my server").
Proof. vm_compute. split; reflexivity. Qed.

Example run_remote_failure :
  let '(tr, status) :=
    Cli.run (Sample.invocation ["kamaki"; "server"; "delete"; "42"] Sample.rejects) in
  status = 2%Z
  ∧ tr = [Cli.SetLevel Cli.WARNING;
          Cli.Log Cli.ERROR "itemNotFound: no such server";
          Cli.Log Cli.INFO "server 42"].
Proof. vm_compute. split; reflexivity. Qed.

(** The options that the classes of cli.py add to the parser take no
    option string of the global ones: [add_option] never meets a
    conflict in [main]. *)
Example no_option_conflict :
  Forall (fun ac =>
            match Cli.update_parser (snd ac) with
            | Some f =>
                NoDup (map Optparse.opt_str (Optparse.option_list (f Cli.global_parser)))
            | None => True
            end) Cli.classes.
Proof.
  unfold Cli.classes.
  repeat (apply Forall_cons_2;
          [first [exact I | apply (bool_decide_unpack _); vm_compute; exact I]|]).
  apply Forall_nil_2.
Qed.

(** With an empty [sys.argv] the help cannot be printed: the run ends
    in an [IndexError], status 1. *)
Example run_empty_argv :
  Cli.main Cli._commands (Sample.invocation [] Sample.succeeds)
  = ([Cli.SetLevel Cli.WARNING], Raise (IndexError "list index out of range"))
  ∧ snd (Cli.run (Sample.invocation [] Sample.succeeds)) = 1%Z.
Proof. split; vm_compute; reflexivity. Qed.

(** An option the command does not know is refused by the second
    parsing, which exits with optparse's status 2. *)
Example run_unknown_option :
  Cli.run (Sample.invocation ["kamaki"; "server"; "list"; "--bogus"] Sample.succeeds)
  = ([Cli.SetLevel Cli.WARNING], 2%Z).
Proof. vm_compute. reflexivity. Qed.

(** * Further properties of the code *)

(** ** More on insertion-ordered dictionaries *)

Section ordered_dict_laws.
Context {K V : Type} `{EqDecision K}.
Implicit Types (d : OrderedDict.t K V) (k : K) (v : V).

Lemma od_get_None d k : OrderedDict.get d k = None ↔ k ∉ OrderedDict.keys d.
Proof.
  rewrite <- od_contains_keys. unfold OrderedDict.contains.
  destruct (OrderedDict.get d k); split; done.
Qed.

Lemma od_get_Some_elem d k v : OrderedDict.get d k = Some v → (k, v) ∈ d.
Proof.
  induction d as [|[k' v'] d IH]; simpl; [done|].
  destruct (decide (k' = k)) as [->|Hne].
  - intros [= ->]. left.
  - intros Hget. right. by apply IH.
Qed.

Lemma od_elem_get d k v :
  NoDup (OrderedDict.keys d) → (k, v) ∈ d → OrderedDict.get d k = Some v.
Proof.
  induction d as [|[k' v'] d IH]; simpl; intros Hnd Hin; [by apply elem_of_nil in Hin|].
  apply NoDup_cons in Hnd as [Hk Hnd].
  apply elem_of_cons in Hin as [[= -> ->]|Hin].
  - by rewrite decide_True.
  - destruct (decide (k' = k)) as [->|Hne]; [|by apply IH].
    exfalso. apply Hk. apply list_elem_of_fmap. by exists (k, v).
Qed.

Lemma od_keys_setitem d k v :
  OrderedDict.keys (OrderedDict.setitem d k v)
  = if OrderedDict.contains d k then OrderedDict.keys d else OrderedDict.keys d ++ [k].
Proof.
  unfold OrderedDict.contains, OrderedDict.keys.
  induction d as [|[k' v'] d IH]; simpl; [done|].
  destruct (decide (k' = k)) as [->|Hne]; simpl; [done|].
  rewrite IH. by destruct (OrderedDict.get d k).
Qed.

Lemma od_nodup_setitem d k v :
  NoDup (OrderedDict.keys d) → NoDup (OrderedDict.keys (OrderedDict.setitem d k v)).
Proof.
  intros Hnd. rewrite od_keys_setitem.
  destruct (OrderedDict.contains d k) eqn:Hc; [done|].
  apply NoDup_app. split; [done|]. split; [|apply NoDup_singleton].
  intros x Hx ->%list_elem_of_singleton.
  apply od_contains_keys in Hx. congruence.
Qed.

Lemma od_forall_setitem (P : K * V → Prop) d k v :
  P (k, v) → Forall P d → Forall P (OrderedDict.setitem d k v).
Proof.
  intros Hkv. induction 1 as [|[k' v'] d Hx Hd IH]; simpl.
  - by constructor.
  - destruct (decide (k' = k)) as [->|Hne]; by constructor.
Qed.

Lemma od_keys_delitem_subseteq d k :
  OrderedDict.keys (OrderedDict.delitem d k) ⊆ OrderedDict.keys d.
Proof.
  unfold OrderedDict.keys. induction d as [|[k' v'] d IH]; simpl; [done|].
  destruct (decide (k' = k)); simpl.
  - by apply list_subseteq_cons.
  - intros x [->|Hx]%elem_of_cons; [left | right; by apply IH].
Qed.

Lemma od_nodup_delitem d k :
  NoDup (OrderedDict.keys d) → NoDup (OrderedDict.keys (OrderedDict.delitem d k)).
Proof.
  unfold OrderedDict.keys. induction d as [|[k' v'] d IH]; simpl; [done|].
  intros [Hk Hnd]%NoDup_cons.
  destruct (decide (k' = k)); simpl; [done|].
  apply NoDup_cons. split; [|by apply IH].
  intros Hin. apply Hk. by apply (od_keys_delitem_subseteq d k).
Qed.

Lemma od_forall_delitem (P : K * V → Prop) d k :
  Forall P d → Forall P (OrderedDict.delitem d k).
Proof.
  induction 1 as [|[k' v'] d Hx Hd IH]; simpl; [done|].
  destruct (decide (k' = k)); [done | by constructor].
Qed.

Lemma od_get_delitem_eq d k :
  NoDup (OrderedDict.keys d) → OrderedDict.get (OrderedDict.delitem d k) k = None.
Proof.
  unfold OrderedDict.keys. induction d as [|[k' v'] d IH]; simpl; [done|].
  intros [Hk Hnd]%NoDup_cons.
  destruct (decide (k' = k)) as [->|Hne]; simpl.
  - by apply od_get_None.
  - rewrite decide_False by done. by apply IH.
Qed.

Lemma od_get_delitem_ne d k k' :
  k ≠ k' → OrderedDict.get (OrderedDict.delitem d k) k' = OrderedDict.get d k'.
Proof.
  intros Hne. induction d as [|[k0 v0] d IH]; simpl; [done|].
  destruct (decide (k0 = k)) as [->|Hne0]; simpl.
  - by rewrite decide_False.
  - by rewrite IH.
Qed.
End ordered_dict_laws.

Lemma mem_keys {V} (d : OrderedDict.t string V) (k : string) :
  mem k (OrderedDict.keys d) = OrderedDict.contains d k.
Proof.
  unfold mem, OrderedDict.contains, OrderedDict.keys.
  induction d as [|[k' v'] d IH]; simpl; [done|].
  destruct (decide (k' = k)) as [->|Hne].
  - by rewrite String.eqb_refl.
  - rewrite IH. replace (String.eqb k k') with false; [done|].
    symmetry. apply String.eqb_neq. congruence.
Qed.

(** ** The persisted layer: [set], [remove_option], [items], [apis] *)

Lemma lower_char_idem (c : ascii) : lower_char (lower_char c) = lower_char c.
Proof. destruct c as [[] [] [] [] [] [] [] []]; reflexivity. Qed.

Lemma lower_idem (s : string) : lower (lower s) = lower s.
Proof. induction s as [|c s IH]; simpl; [done|]. by rewrite lower_char_idem, IH. Qed.

(** The parser's state after a [set] on a section that may be named:
    the section exists and holds the value under the lower-cased option
    name, every other section and the [DEFAULT] entries are as before. *)
Lemma set_base (self : Config.t) (section option : string) (w : value) :
  section ≠ "" → lower section ≠ "default" →
  ∃ sections',
    Config.set self section option w
    = (Config.with_base self
         {| RawConfigParser._sections := sections';
            RawConfigParser._defaults := RawConfigParser._defaults (Config.base self) |},
       Ok tt)
    ∧ OrderedDict.get sections' section
      = Some (OrderedDict.setitem
                (default [] (OrderedDict.get (RawConfigParser._sections (Config.base self)) section))
                (lower option) w)
    ∧ (∀ section', section' ≠ section →
         OrderedDict.get sections' section'
         = OrderedDict.get (RawConfigParser._sections (Config.base self)) section')
    ∧ OrderedDict.keys sections'
      = if OrderedDict.contains (RawConfigParser._sections (Config.base self)) section
        then OrderedDict.keys (RawConfigParser._sections (Config.base self))
        else OrderedDict.keys (RawConfigParser._sections (Config.base self)) ++ [section].
Proof.
  intros Hne Hdef.
  assert (Hnd : (String.eqb section "" || String.eqb section RawConfigParser.DEFAULTSECT)%bool = false).
  { apply orb_false_iff. split; apply String.eqb_neq; [done|].
    intros ->. by apply Hdef. }
  assert (Hld : String.eqb (lower section) "default" = false) by by apply String.eqb_neq.
  unfold Config.set, RawConfigParser.sections. rewrite mem_keys.
  unfold OrderedDict.contains at 1.
  destruct (OrderedDict.get (RawConfigParser._sections (Config.base self)) section)
    as [sect|] eqn:Hget; simpl.
  - unfold RawConfigParser.set. rewrite Hnd, Hget.
    eexists. split; [reflexivity|]. split; [apply od_get_setitem_eq|].
    split; [intros s' Hs'; by apply od_get_setitem_ne|].
    rewrite od_keys_setitem. unfold OrderedDict.contains. by rewrite Hget.
  - unfold RawConfigParser.add_section. rewrite Hld.
    unfold OrderedDict.contains. rewrite Hget. simpl.
    unfold RawConfigParser.set. simpl. rewrite Hnd, od_get_setitem_eq.
    eexists. split; [reflexivity|]. split; [apply od_get_setitem_eq|].
    split.
    + intros s' Hs'. by rewrite !od_get_setitem_ne.
    + rewrite !od_keys_setitem. unfold OrderedDict.contains.
      by rewrite od_get_setitem_eq, Hget.
Qed.

(** X1. [set] then [get]: on a section other than the empty one and the
    variants of "default", [set] succeeds (creating the section when it
    is missing), and [get] then returns the value set, also when the
    option is spelt with other capitals, unless a run-time override
    hides it. Lookups in other sections are not affected. *)
Theorem set_then_get (self : Config.t) (section option option' : string) (w : value) :
  section ≠ "" → lower section ≠ "default" →
  lower option' = lower option →
  Config.override_layer self section option' = None →
  snd (Config.set self section option w) = Ok tt
  ∧ Config.get (fst (Config.set self section option w)) section option' = Ok w
  ∧ (∀ section' option'', section' ≠ section →
       Config.get (fst (Config.set self section option w)) section' option''
       = Config.get self section' option'').
Proof.
  intros Hne Hdef Hlow Hov.
  destruct (set_base self section option w Hne Hdef) as (sections' & Hset & Hget & Hother & _).
  rewrite Hset. simpl. split; [done|]. split.
  - rewrite get_layers.
    replace (Config.override_layer (Config.with_base self _) section option') with (@None value)
      by (symmetry; exact Hov).
    unfold Config.persisted_layer. simpl. rewrite Hget, Hlow.
    by rewrite od_get_setitem_eq.
  - intros section' option'' Hs'. rewrite !get_layers.
    replace (Config.override_layer (Config.with_base self _) section' option'')
      with (Config.override_layer self section' option'') by done.
    unfold Config.persisted_layer. simpl. by rewrite (Hother _ Hs').
Qed.

Lemma set_then_get_witness :
  Config.get (fst (Config.set Sample.config "pithos" "URL" (VStr "https://pithos")))
             "pithos" "url"
  = Ok (VStr "https://pithos").
Proof.
  apply (set_then_get Sample.config "pithos" "URL" "url" (VStr "https://pithos"));
    first [discriminate | reflexivity].
Defined.

Lemma with_base_same (self : Config.t) : Config.with_base self (Config.base self) = self.
Proof. by destruct self. Qed.

Lemma wf_section_tidy (self : Config.t) (section : string) (sect : OrderedDict.t string value) :
  Config.wf self →
  OrderedDict.get (RawConfigParser._sections (Config.base self)) section = Some sect →
  Config.tidy sect.
Proof.
  intros [_ Hopt _ _] Hget.
  apply od_get_Some_elem in Hget.
  by apply (proj1 (Forall_forall _ _) Hopt (section, sect)).
Qed.

(** X2. [remove_option] never raises: a missing section is silently
    accepted. Afterwards, unless an override hides it, [get] answers
    with the [DEFAULT] entry of the file if the section exists and there
    is one, else with the built-in default, else with [None]; lookups
    of other options and in other sections are not affected. *)
Theorem remove_option_then_get (self : Config.t) (section option : string) :
  Config.wf self →
  section ≠ "" → section ≠ RawConfigParser.DEFAULTSECT →
  snd (Config.remove_option self section option) = Ok tt
  ∧ (Config.override_layer self section option = None →
     Config.get (fst (Config.remove_option self section option)) section option
     = Ok (match OrderedDict.get (RawConfigParser._sections (Config.base self)) section,
                 OrderedDict.get (RawConfigParser._defaults (Config.base self)) (lower option)
           with
           | Some _, Some v => v
           | _, _ => default VNone (Config.default_layer section option)
           end))
  ∧ (∀ section' option',
       section' ≠ section ∨ lower option' ≠ lower option →
       Config.get (fst (Config.remove_option self section option)) section' option'
       = Config.get self section' option').
Proof.
  intros Hwf Hne Hdef.
  assert (Hnd : (String.eqb section "" || String.eqb section RawConfigParser.DEFAULTSECT)%bool = false).
  { apply orb_false_iff. split; by apply String.eqb_neq. }
  unfold Config.remove_option, RawConfigParser.remove_option. rewrite Hnd.
  destruct (OrderedDict.get (RawConfigParser._sections (Config.base self)) section)
    as [sect|] eqn:Hget; simpl.
  - destruct (wf_section_tidy _ _ _ Hwf Hget) as [Hnodup _].
    split; [done|]. split.
    + intros Hov. rewrite get_layers.
      replace (Config.override_layer (Config.with_base self _) section option) with (@None value)
        by (symmetry; exact Hov).
      unfold Config.persisted_layer. simpl.
      rewrite od_get_setitem_eq, od_get_delitem_eq by done.
      by destruct (OrderedDict.get _ (lower option)).
    + intros section' option' Hother. rewrite !get_layers.
      replace (Config.override_layer (Config.with_base self _) section' option')
        with (Config.override_layer self section' option') by done.
      unfold Config.persisted_layer. simpl.
      destruct (decide (section = section')) as [<-|Hs].
      * destruct Hother as [?|Ho]; [done|].
        rewrite od_get_setitem_eq, Hget.
        rewrite od_get_delitem_ne; [done|]. intros E. apply Ho. by symmetry.
      * by rewrite od_get_setitem_ne.
  - rewrite with_base_same. split; [done|]. split; [|done].
    intros Hov. rewrite get_layers, Hov.
    unfold Config.persisted_layer. rewrite Hget.
    by rewrite (proj2 (String.eqb_neq _ _) Hdef).
Qed.

(** ** What the parser keeps true *)

Lemma tidy_nil : Config.tidy [].
Proof. split; [apply NoDup_nil_2 | constructor]. Qed.

Lemma tidy_setitem (d : OrderedDict.t string value) (option : string) (w : value) :
  Config.tidy d → Config.tidy (OrderedDict.setitem d (lower option) w).
Proof.
  intros [Hnd Hlow]. split; [by apply od_nodup_setitem|].
  apply od_forall_setitem; [apply lower_idem | done].
Qed.

Lemma tidy_delitem (d : OrderedDict.t string value) (k : string) :
  Config.tidy d → Config.tidy (OrderedDict.delitem d k).
Proof.
  intros [Hnd Hlow]. split; [by apply od_nodup_delitem | by apply od_forall_delitem].
Qed.

(** Replacing the dictionary of a section by a tidy one, or adding a
    section not named [DEFAULT], keeps the parser well formed. *)
Lemma wf_setitem_section (self : Config.t) (section : string)
    (sect : OrderedDict.t string value) (dflt : OrderedDict.t string value) :
  Config.wf self → Config.tidy sect → Config.tidy dflt →
  section ≠ RawConfigParser.DEFAULTSECT →
  Config.wf (Config.with_base self
               {| RawConfigParser._sections :=
                    OrderedDict.setitem (RawConfigParser._sections (Config.base self)) section sect;
                  RawConfigParser._defaults := dflt |}).
Proof.
  intros [Hs Ho Hd Hn] Hsect Hdflt Hne. constructor; simpl.
  - by apply od_nodup_setitem.
  - by apply (od_forall_setitem (fun sec => Config.tidy (snd sec))).
  - done.
  - rewrite od_keys_setitem. destruct (OrderedDict.contains _ _); [done|].
    intros [?|?%list_elem_of_singleton]%elem_of_app; [done | congruence].
Qed.

Lemma wf_defaults_only (self : Config.t) (dflt : OrderedDict.t string value) :
  Config.wf self → Config.tidy dflt →
  Config.wf (Config.with_base self
               {| RawConfigParser._sections := RawConfigParser._sections (Config.base self);
                  RawConfigParser._defaults := dflt |}).
Proof. intros [Hs Ho Hd Hn] Hdflt. by constructor. Qed.

Lemma wf_add_section (self : Config.t) (section : string) :
  Config.wf self →
  Config.wf (Config.with_base self (fst (RawConfigParser.add_section (Config.base self) section))).
Proof.
  intros Hwf. unfold RawConfigParser.add_section.
  destruct (String.eqb (lower section) "default") eqn:Hl; [by rewrite with_base_same|].
  destruct (OrderedDict.contains _ _); [by rewrite with_base_same|]. simpl.
  apply wf_setitem_section; [done | apply tidy_nil | apply Hwf |].
  intros ->. by vm_compute in Hl.
Qed.

Lemma wf_raw_set (self : Config.t) (section option : string) (w : value) :
  Config.wf self →
  Config.wf (Config.with_base self (fst (RawConfigParser.set (Config.base self) section option w))).
Proof.
  intros Hwf. unfold RawConfigParser.set, RawConfigParser.optionxform.
  destruct (_ || _)%bool eqn:Hc; simpl.
  - apply wf_defaults_only; [done|]. apply tidy_setitem, Hwf.
  - destruct (OrderedDict.get _ section) as [sect|] eqn:Hget; simpl;
      [|by rewrite with_base_same].
    apply wf_setitem_section; [done | | apply Hwf |].
    + apply tidy_setitem. by eapply wf_section_tidy.
    + intros ->. apply orb_false_iff in Hc as [_ Hc]. by vm_compute in Hc.
Qed.

Lemma wf_set (self : Config.t) (section option : string) (w : value) :
  Config.wf self → Config.wf (fst (Config.set self section option w)).
Proof.
  intros Hwf. unfold Config.set.
  destruct (negb _).
  - pose proof (wf_add_section self section Hwf) as Hadd.
    destruct (RawConfigParser.add_section (Config.base self) section) as [b [[]|e]];
      simpl in *; [|done].
    pose proof (wf_raw_set _ section option w Hadd) as Hset. simpl in Hset.
    by destruct (RawConfigParser.set b section option w).
  - pose proof (wf_raw_set self section option w Hwf) as Hset.
    by destruct (RawConfigParser.set (Config.base self) section option w).
Qed.

Lemma wf_remove_option (self : Config.t) (section option : string) :
  Config.wf self → Config.wf (fst (Config.remove_option self section option)).
Proof.
  intros Hwf.
  assert (Hraw : Config.wf (Config.with_base self
                   (fst (RawConfigParser.remove_option (Config.base self) section option)))).
  { unfold RawConfigParser.remove_option, RawConfigParser.optionxform.
    destruct (_ || _)%bool eqn:Hc; simpl.
    - apply wf_defaults_only; [done|]. apply tidy_delitem, Hwf.
    - destruct (OrderedDict.get _ section) as [sect|] eqn:Hget; simpl;
        [|by rewrite with_base_same].
      apply wf_setitem_section; [done | | apply Hwf |].
      + apply tidy_delitem. by eapply wf_section_tidy.
      + intros ->. apply orb_false_iff in Hc as [_ Hc]. by vm_compute in Hc. }
  unfold Config.remove_option.
  destruct (RawConfigParser.remove_option (Config.base self) section option) as [b [?|e]];
    [done|]. by destruct e.
Qed.

Lemma tidy_store (opts : list (string * string)) (d : OrderedDict.t string value) :
  Config.tidy d →
  Config.tidy (fold_left (fun d kv => OrderedDict.setitem d (RawConfigParser.optionxform (fst kv))
                                        (VStr (snd kv))) opts d).
Proof.
  revert d. induction opts as [|kv opts IH]; intros d Hd; simpl; [done|].
  apply IH. by apply tidy_setitem.
Qed.

Lemma wf_read_section (self : Config.t) (sec : string * list (string * string)) :
  Config.wf self →
  Config.wf (Config.with_base self (RawConfigParser.read_section (Config.base self) sec)).
Proof.
  intros Hwf. destruct sec as [sectname opts]. unfold RawConfigParser.read_section.
  destruct (OrderedDict.get _ sectname) as [cursect|] eqn:Hget.
  - apply wf_setitem_section; [done | | apply Hwf |].
    + apply tidy_store. by eapply wf_section_tidy.
    + intros ->. apply od_get_Some_elem in Hget.
      apply (Config.wf_default_section _ Hwf). apply list_elem_of_fmap. by eexists (_, _).
  - destruct (String.eqb sectname RawConfigParser.DEFAULTSECT) eqn:Hd.
    + apply wf_defaults_only; [done|]. apply tidy_store, Hwf.
    + apply wf_setitem_section; [done | | apply Hwf | by apply String.eqb_neq].
      apply tidy_store. split; [apply NoDup_singleton | by repeat constructor].
Qed.

Lemma wf_read (self : Config.t) (parsed : option (list (string * list (string * string)))) :
  Config.wf self →
  Config.wf (Config.with_base self (RawConfigParser.read (Config.base self) parsed)).
Proof.
  intros Hwf. destruct parsed as [secs|]; simpl; [|by rewrite with_base_same].
  revert self Hwf. induction secs as [|sec secs IH]; intros self Hwf; simpl.
  - by rewrite with_base_same.
  - apply (IH _ (wf_read_section self sec Hwf)).
Qed.

Lemma wf_load_defaults (self : Config.t) :
  Config.wf self → Config.wf (fst (Config._load_defaults self)).
Proof.
  intros Hwf. unfold Config._load_defaults.
  generalize (map_to_list Config.DEFAULTS).
  assert (Hgen : ∀ l (acc : Config.t * result unit),
    Config.wf (fst acc) →
    Config.wf (fst (fold_left
      (fun (acc : Config.t * result unit) (so : string * gmap string value) =>
         fold_left
           (fun (acc : Config.t * result unit) (ov : string * value) =>
              match acc with
              | (c, Ok _) => Config.set c (fst so) (fst ov) (snd ov)
              | (c, Raise e) => (c, Raise e)
              end)
           (map_to_list (snd so)) acc) l acc))).
  { induction l as [|so l IH]; intros acc Hacc; simpl; [done|].
    apply IH. generalize (map_to_list (snd so)). clear IH.
    intros l'. revert acc Hacc. induction l' as [|ov l' IH']; intros acc Hacc; simpl; [done|].
    apply IH'. destruct acc as [c [[]|e]]; simpl in *; [by apply wf_set | done]. }
  intros l. by apply Hgen.
Qed.

Lemma wf_init (path_arg : option string) (environ : gmap string string)
    (files : string → option (list (string * list (string * string)))) :
  Config.wf (fst (Config.__init__ path_arg environ files)).
Proof.
  unfold Config.__init__.
  set (start := {| Config.base := RawConfigParser.__init__; Config.path := _;
                   Config._overrides := ∅ |}).
  assert (Hstart : Config.wf start).
  { constructor; simpl; [apply NoDup_nil_2 | constructor | apply tidy_nil | apply not_elem_of_nil]. }
  pose proof (wf_load_defaults start Hstart) as Hload.
  destruct (Config._load_defaults start) as [c [[]|e]]; simpl in *; [|done].
  by apply wf_read.
Qed.

(** X3. The parser's dictionaries stay well formed under every operation
    of [Config]: option names are stored in lower case, [DEFAULT] is
    never the name of a section, keys are not repeated. A fresh [Config]
    is well formed whatever sections and options were read from its
    file, and [set] (even when it raises), [remove_option] and
    [override] keep it so. *)
Theorem parser_well_formed :
  (∀ path_arg environ files, Config.wf (fst (Config.__init__ path_arg environ files)))
  ∧ (∀ self, Config.wf self →
       (∀ section option w, Config.wf (fst (Config.set self section option w)))
       ∧ (∀ section option, Config.wf (fst (Config.remove_option self section option)))
       ∧ (∀ section option w, Config.wf (Config.override self section option w))).
Proof.
  split; [apply wf_init|].
  intros self Hwf. split; [|split].
  - intros. by apply wf_set.
  - intros. by apply wf_remove_option.
  - intros. destruct Hwf. by constructor.
Qed.

Lemma remove_option_then_get_witness :
  Config.get (fst (Config.remove_option Sample.config "global" "token")) "global" "token"
  = Ok (VStr "")
  ∧ Config.get (fst (Config.remove_option Sample.config "nova" "url")) "nova" "url" = Ok VNone
  ∧ snd (Config.remove_option Sample.config "pithos" "url") = Ok tt.
Proof.
  assert (Hwf : Config.wf Sample.config) by apply wf_init.
  split; [|split].
  - apply (proj1 (proj2 (remove_option_then_get Sample.config "global" "token" Hwf
                           ltac:(discriminate) ltac:(discriminate)))).
    reflexivity.
  - apply (proj1 (proj2 (remove_option_then_get Sample.config "nova" "url" Hwf
                           ltac:(discriminate) ltac:(discriminate)))).
    reflexivity.
  - apply (proj1 (remove_option_then_get Sample.config "pithos" "url" Hwf
                    ltac:(discriminate) ltac:(discriminate))).
Defined.

(** ** [items] and [apis] *)

Lemma od_update_get {K V} `{EqDecision K} (d2 d : OrderedDict.t K V) (k : K) :
  NoDup (OrderedDict.keys d2) →
  OrderedDict.get (fold_left (fun d kv => OrderedDict.setitem d (fst kv) (snd kv)) d2 d) k
  = match OrderedDict.get d2 k with
    | Some v => Some v
    | None => OrderedDict.get d k
    end.
Proof.
  revert d. induction d2 as [|[k1 v1] d2 IH]; intros d Hnd; simpl; [done|].
  apply NoDup_cons in Hnd as [Hk1 Hnd]. simpl in Hk1. rewrite IH by done.
  destruct (decide (k1 = k)) as [->|Hne].
  - apply od_get_None in Hk1. by rewrite Hk1, od_get_setitem_eq.
  - by rewrite od_get_setitem_ne.
Qed.

Lemma od_update_tidy (d2 d : OrderedDict.t string value) :
  Config.tidy d2 → Config.tidy d →
  Config.tidy (fold_left (fun d kv => OrderedDict.setitem d (fst kv) (snd kv)) d2 d).
Proof.
  intros [_ Hlow]. revert d. induction Hlow as [|[k v] d2 Hk _ IH]; intros d Hd; simpl; [done|].
  apply IH. simpl in Hk. rewrite <- Hk. by apply tidy_setitem.
Qed.

Lemma dict_update_lookup (kvs : OrderedDict.t string value) (d0 : gmap string value) (k : string) :
  NoDup (OrderedDict.keys kvs) →
  fold_left (fun d kv => <[fst kv := snd kv]> d) kvs d0 !! k
  = match OrderedDict.get kvs k with
    | Some v => Some v
    | None => d0 !! k
    end.
Proof.
  revert d0. induction kvs as [|[k1 v1] kvs IH]; intros d0 Hnd; simpl; [done|].
  apply NoDup_cons in Hnd as [Hk1 Hnd]. simpl in Hk1. rewrite IH by done.
  destruct (decide (k1 = k)) as [->|Hne].
  - apply od_get_None in Hk1. by rewrite Hk1, lookup_insert_eq.
  - by rewrite lookup_insert_ne.
Qed.

(** What [RawConfigParser.items] returns, key by key. *)
Lemma raw_items_get (self : Config.t) (section : string) :
  Config.wf self →
  match RawConfigParser.items (Config.base self) section with
  | Ok kvs =>
      Config.tidy kvs
      ∧ ∀ k, OrderedDict.get kvs k
             = if decide (k = "__name__") then None
               else if decide (lower k = k) then Config.persisted_layer self section k
               else None
  | Raise e =>
      e = NoSectionError section
      ∧ ∀ k, Config.persisted_layer self section k = None
  end.
Proof.
  intros Hwf. unfold RawConfigParser.items, Config.persisted_layer.
  assert (Hlower : ∀ (d : OrderedDict.t string value) k,
             Config.tidy d → lower k ≠ k → OrderedDict.get d k = None).
  { intros d k [_ Hlow] Hk. apply od_get_None. intros Hin.
    apply list_elem_of_fmap in Hin as ([k' v'] & -> & Hin).
    by apply (proj1 (Forall_forall _ _) Hlow) in Hin. }
  assert (Hoverlay : ∀ d2, Config.tidy d2 →
    let kvs := OrderedDict.delitem
                 (fold_left (fun d kv => OrderedDict.setitem d (fst kv) (snd kv)) d2
                            (RawConfigParser._defaults (Config.base self))) "__name__" in
    Config.tidy kvs
    ∧ ∀ k, OrderedDict.get kvs k
           = if decide (k = "__name__") then None
             else if decide (lower k = k)
                  then match OrderedDict.get d2 (lower k) with
                       | Some v => Some v
                       | None => OrderedDict.get (RawConfigParser._defaults (Config.base self))
                                                 (lower k)
                       end
                  else None).
  { intros d2 Hd2 kvs.
    assert (Hall : Config.tidy
              (fold_left (fun d kv => OrderedDict.setitem d (fst kv) (snd kv)) d2
                         (RawConfigParser._defaults (Config.base self)))).
    { apply od_update_tidy; [done | apply Hwf]. }
    split; [by apply tidy_delitem|].
    intros k. unfold kvs. destruct (decide (k = "__name__")) as [->|Hname].
    - apply od_get_delitem_eq, Hall.
    - rewrite od_get_delitem_ne by done.
      destruct (decide (lower k = k)) as [Hk|Hk].
      + rewrite Hk. apply od_update_get, Hd2.
      + by apply Hlower. }
  destruct (OrderedDict.get _ section) as [d2|] eqn:Hget.
  - apply Hoverlay. by eapply wf_section_tidy.
  - destruct (String.eqb section RawConfigParser.DEFAULTSECT) eqn:Hd; simpl.
    + destruct (Hoverlay [] tidy_nil) as [Htidy Hk]. split; [done|].
      intros k. rewrite Hk. simpl. done.
    + done.
Qed.

(** X4. [items(section)] lists exactly what [get] finds for the section
    in the persisted layer: every lower-case option name other than
    [__name__] that the section or the [DEFAULT] entries define, with
    the value the lookup gives; a missing section yields no item and no
    error. With [include_defaults] a section that has no built-in
    defaults raises [KeyError], whether or not the file defines it. *)
Theorem items_agree_with_get (self : Config.t) (section : string) :
  Config.wf self →
  (∃ d, Config.items self section false = Ok d
        ∧ ∀ k v, d !! k = Some v
                 ↔ k ≠ "__name__" ∧ lower k = k
                   ∧ Config.persisted_layer self section k = Some v)
  ∧ (Config.DEFAULTS !! section = None →
     Config.items self section true = Raise (KeyError section)).
Proof.
  intros Hwf. split.
  - unfold Config.items.
    pose proof (raw_items_get self section Hwf) as Hraw.
    destruct (RawConfigParser.items (Config.base self) section) as [kvs|e].
    + destruct Hraw as [[Hnd _] Hk]. eexists. split; [reflexivity|].
      intros k v. rewrite dict_update_lookup, Hk, lookup_empty by done.
      destruct (decide (k = "__name__")) as [->|Hname]; [by split; [|intros [? _]]|].
      destruct (decide (lower k = k)) as [Hlow|Hlow].
      * destruct (Config.persisted_layer self section k) as [v0|].
        -- split; [by intros [= ->] | by intros (_ & _ & [= ->])].
        -- split; [done | by intros (_ & _ & ?)].
      * split; [done | by intros (_ & ? & _)].
    + destruct Hraw as [-> Hnone]. eexists. split; [reflexivity|].
      intros k v. rewrite lookup_empty, Hnone. split; [done | by intros (_ & _ & ?)].
  - intros Hd. unfold Config.items. by rewrite Hd.
Qed.

Lemma items_agree_with_get_witness :
  (∃ d, Config.items Sample.config "nova" false = Ok d
        ∧ ∀ k v, d !! k = Some v
                 ↔ k ≠ "__name__" ∧ lower k = k
                   ∧ Config.persisted_layer Sample.config "nova" k = Some v)
  ∧ Config.items Sample.config "nova" true = Raise (KeyError "nova").
Proof.
  destruct (items_agree_with_get Sample.config "nova" (wf_init _ _ _)) as [Hitems Hkey].
  split; [exact Hitems | by apply Hkey].
Defined.

(** X5. Sections keep their order of creation: a [set] on a section that
    does not exist yet puts it last in [apis()], a [set] on an existing
    one changes nothing there, and [global] is never listed. *)
Theorem set_extends_apis (self : Config.t) (section option : string) (w : value) :
  section ≠ "" → lower section ≠ "default" →
  Config.apis (fst (Config.set self section option w))
  = (if bool_decide (section = "global"
                     ∨ section ∈ RawConfigParser.sections (Config.base self))
     then Config.apis self
     else Config.apis self ++ [section])
  ∧ "global" ∉ Config.apis (fst (Config.set self section option w)).
Proof.
  intros Hne Hdef. split.
  - destruct (set_base self section option w Hne Hdef) as (sections' & Hset & _ & _ & Hkeys).
    rewrite Hset. unfold Config.apis, RawConfigParser.sections. simpl. rewrite Hkeys.
    destruct (OrderedDict.contains _ section) eqn:Hc.
    + apply od_contains_keys in Hc. rewrite bool_decide_eq_true_2 by by right. done.
    + assert (Hnot : section ∉ OrderedDict.keys
                       (RawConfigParser._sections (Config.base self))).
      { intros Hin%od_contains_keys. congruence. }
      rewrite filter_app, filter_cons, filter_nil.
      destruct (decide (section = "global")) as [->|Hg].
      * rewrite bool_decide_eq_true_2 by by left.
        rewrite decide_False by (by intros Hn). by rewrite List.app_nil_r.
      * rewrite bool_decide_eq_false_2 by (by intros [?|?]).
        by rewrite decide_True.
  - unfold Config.apis. intros [Hin _]%list_elem_of_filter. done.
Qed.

Lemma set_extends_apis_witness :
  Config.apis (fst (Config.set Sample.config "pithos" "url" (VStr "https://pithos")))
  = Config.apis Sample.config ++ ["pithos"].
Proof.
  exact (proj1 (set_extends_apis Sample.config "pithos" "url" (VStr "https://pithos")
                  ltac:(discriminate) ltac:(discriminate))).
Defined.

(** ** Construction *)

Lemma store_keeps (opts : list (string * string)) (d : OrderedDict.t string value) (k : string) :
  is_Some (OrderedDict.get d k) →
  is_Some (OrderedDict.get
             (fold_left (fun d kv => OrderedDict.setitem d (RawConfigParser.optionxform (fst kv))
                                       (VStr (snd kv))) opts d) k).
Proof.
  revert d. induction opts as [|kv opts IH]; intros d Hd; simpl; [done|].
  apply IH. destruct (decide (RawConfigParser.optionxform (fst kv) = k)) as [<-|Hne].
  - by rewrite od_get_setitem_eq.
  - by rewrite od_get_setitem_ne.
Qed.

Lemma read_section_keeps (b : RawConfigParser.t) (sec : string * list (string * string))
    (section k : string) :
  RawConfigParser.present b section k →
  RawConfigParser.present (RawConfigParser.read_section b sec) section k.
Proof.
  intros (sect & v & Hsect & Hk). destruct sec as [sectname opts].
  unfold RawConfigParser.read_section, RawConfigParser.present.
  destruct (OrderedDict.get (RawConfigParser._sections b) sectname) as [cursect|] eqn:Hget.
  - simpl. destruct (decide (sectname = section)) as [->|Hne].
    + rewrite od_get_setitem_eq.
      destruct (store_keeps opts cursect k) as [v' Hv'].
      { rewrite Hsect in Hget. injection Hget as <-. by rewrite Hk. }
      eauto.
    + rewrite od_get_setitem_ne by done. eauto.
  - destruct (String.eqb sectname RawConfigParser.DEFAULTSECT); simpl; [eauto|].
    rewrite od_get_setitem_ne by congruence. eauto.
Qed.

Lemma read_keeps (b : RawConfigParser.t) (parsed : option (list (string * list (string * string))))
    (section k : string) :
  RawConfigParser.present b section k →
  RawConfigParser.present (RawConfigParser.read b parsed) section k.
Proof.
  destruct parsed as [secs|]; simpl; [|done].
  revert b. induction secs as [|sec secs IH]; intros b Hb; simpl; [done|].
  by apply IH, read_section_keeps.
Qed.

Lemma default_layer_keys (section option : string) (D : value) :
  Config.default_layer section option = Some D →
  (section, option) ∈ [("global", "colors"); ("global", "token");
                       ("config", "cli"); ("config", "description")].
Proof.
  unfold Config.default_layer, Config.DEFAULTS.
  destruct (decide (section = "global")) as [->|Hg].
  - rewrite lookup_insert_eq.
    destruct (decide (option = "colors")) as [->|Hc]; [intros _; by repeat constructor|].
    rewrite lookup_insert_ne by done.
    destruct (decide (option = "token")) as [->|Ht]; [intros _; by repeat constructor|].
    by rewrite lookup_insert_ne, lookup_empty.
  - rewrite lookup_insert_ne by done.
    destruct (decide (section = "config")) as [->|Hc];
      [|by rewrite lookup_insert_ne, lookup_empty].
    rewrite lookup_insert_eq.
    destruct (decide (option = "cli")) as [->|Hcli]; [intros _; by repeat constructor|].
    rewrite lookup_insert_ne by done.
    destruct (decide (option = "description")) as [->|Hd]; [intros _; by repeat constructor|].
    by rewrite lookup_insert_ne, lookup_empty.
Qed.

(** X6. Constructing a [Config] succeeds whatever sections and options
    were read from its file (or when there is no file), and starts with
    no override. Every key that has a built-in default is then present
    in the persisted layer, so [get] finds a value for it there; when
    no file could be read that value is the default itself. *)
Theorem init_loads_defaults (path_arg : option string) (environ : gmap string string)
    (files : string → option (list (string * list (string * string))))
    (section option : string) (D : value) :
  Config.default_layer section option = Some D →
  let c := Config.__init__ path_arg environ files in
  snd c = Ok tt
  ∧ Config._overrides (fst c) = ∅
  ∧ (∃ v, Config.persisted_layer (fst c) section option = Some v
          ∧ Config.get (fst c) section option = Ok v)
  ∧ (files (Config.path (fst c)) = None → Config.get (fst c) section option = Ok D).
Proof.
  intros HD c. subst c. unfold Config.__init__.
  set (p := match path_arg with Some p => _ | None => _ end).
  set (start := {| Config.base := RawConfigParser.__init__; Config.path := p;
                   Config._overrides := ∅ |}).
  assert (Hload : ∃ b, Config._load_defaults start
                       = ({| Config.base := b; Config.path := p; Config._overrides := ∅ |}, Ok tt)
                       ∧ (∀ s o D', Config.default_layer s o = Some D' →
                            ∃ sect, OrderedDict.get (RawConfigParser._sections b) s = Some sect
                                    ∧ OrderedDict.get sect o = Some D')).
  { eexists. split; [vm_compute; reflexivity|].
    intros s o D' HD'. pose proof (default_layer_keys s o D' HD') as Hin.
    repeat (apply elem_of_cons in Hin as [[= -> ->]|Hin]);
      [| | | | by apply elem_of_nil in Hin];
      vm_compute in HD'; injection HD' as <-; eexists; split; reflexivity. }
  destruct Hload as (b & -> & Hb). simpl.
  split; [done|]. split; [done|].
  destruct (Hb _ _ _ HD) as (sect & Hsect & Ho).
  assert (Hlow : lower option = option).
  { pose proof (default_layer_keys _ _ _ HD) as Hin.
    repeat (apply elem_of_cons in Hin as [[= -> ->]|Hin]); try reflexivity.
    by apply elem_of_nil in Hin. }
  split.
  - destruct (read_keeps b (files p) section option) as (sect' & v & Hsect' & Hv).
    { by exists sect, D. }
    exists v. rewrite get_layers. unfold Config.override_layer, Config.persisted_layer. simpl.
    rewrite lookup_empty, Hlow, Hsect', Hv. done.
  - intros ->. simpl. rewrite get_layers.
    unfold Config.override_layer, Config.persisted_layer. simpl.
    rewrite lookup_empty, Hlow, Hsect, Ho. done.
Qed.

Lemma init_loads_defaults_witness :
  Config.get (fst (Config.__init__ None ∅ (fun _ => None))) "global" "colors" = Ok (VStr "on")
  ∧ ∃ v, Config.persisted_layer Sample.config "global" "token" = Some v
         ∧ Config.get Sample.config "global" "token" = Ok v.
Proof.
  split.
  - destruct (init_loads_defaults None ∅ (fun _ => None) "global" "colors" (VStr "on") eq_refl)
      as (_ & _ & _ & Hget).
    exact (Hget eq_refl).
  - exact (proj1 (proj2 (proj2 (init_loads_defaults None ∅ (fun _ => Some Sample.kamakirc)
                                  "global" "token" (VStr "") eq_refl)))).
Defined.

(** ** What option parsing can raise *)

Lemma take_action_raise (o : Optparse.option_) (val : string) (v : Optparse.values) (e : exn) :
  Optparse.take_action o val v = Raise e → ∃ msg, e = AttributeError msg.
Proof.
  unfold Optparse.take_action.
  destruct (Optparse.act o); try done.
  destruct (v !! Optparse.dest o) as [[]|]; try done; intros [= <-]; eauto.
Qed.

Lemma process_harmless (p : Optparse.t) (o : Optparse.option_) (val : string)
    (v : Optparse.values) (took : bool) (rargs : list string) :
  Optparse.harmless p (Optparse.process o val v took rargs).
Proof.
  unfold Optparse.process.
  destruct (Optparse.take_action o val v) as [v'|e] eqn:Hact; simpl; [done|].
  right. by eapply take_action_raise.
Qed.

Lemma process_long_opt_harmless (p : Optparse.t) (arg : string) (rest : list string)
    (v : Optparse.values) :
  Optparse.harmless p (Optparse.process_long_opt p arg rest v).
Proof.
  unfold Optparse.process_long_opt.
  destruct (partition "=" arg) as [[opt sep] next_arg].
  destruct (Optparse.match_long_opt p opt) as [o|]; [|done].
  destruct (Optparse.takes_value o).
  - destruct (negb (String.eqb sep "")); [apply process_harmless|].
    destruct rest; [by left | apply process_harmless].
  - destruct (negb (String.eqb sep "")); [by left | apply process_harmless].
Qed.

Lemma process_short_opts_harmless (p : Optparse.t) (chars : string) (rest : list string)
    (v : Optparse.values) :
  Optparse.harmless p (Optparse.process_short_opts p chars rest v).
Proof.
  revert v. induction chars as [|ch chars IH]; intros v; simpl; [done|].
  destruct (Optparse.short_opt p _) as [o|]; [|done].
  destruct (Optparse.takes_value o).
  - destruct chars; [|apply process_harmless].
    destruct rest; [by left | apply process_harmless].
  - destruct (Optparse.take_action o "" v) as [v'|e] eqn:Hact; [apply IH|].
    right. by eapply take_action_raise.
Qed.

Lemma process_args_raise (p : Optparse.t) (n : nat) (rargs : list string)
    (v : Optparse.values) (largs : list string) :
  (length rargs ≤ n)%nat →
  match Optparse.process_args p v largs rargs with
  | (_, _, _, Some (Optparse.Fatal e)) => Optparse.expected p e
  | _ => True
  end.
Proof.
  revert rargs v largs.
  induction n as [|n IH]; intros [|arg rest] v largs Hn; simpl in Hn; try done; [lia|].
  assert (Hrest : (length rest ≤ n)%nat) by lia.
  assert (Hgo : ∀ r, Optparse.harmless p r →
    match (match r with
           | Optparse.Continue v' false => Optparse.process_args p v' largs rest
           | Optparse.Continue v' true =>
               match rest with
               | _ :: rest' => Optparse.process_args p v' largs rest'
               | [] => (v', largs, [], None)
               end
           | Optparse.Stop v' rargs' s => (v', largs, rargs', Some s)
           end) with
    | (_, _, _, Some (Optparse.Fatal e)) => Optparse.expected p e
    | _ => True
    end).
  { intros [v' [|]|v' rargs' [opt|e]] Hr; simpl; try done.
    - destruct rest as [|a rest']; [done|]. apply IH. simpl in Hrest. lia.
    - by apply IH. }
  simpl. destruct (String.eqb arg "--"); [done|].
  destruct (String.prefix "--" arg); [apply Hgo, process_long_opt_harmless|].
  destruct arg as [|c [|c' chars]]; [by apply IH| |];
    destruct c as [[] [] [] [] [] [] [] []]; try by apply IH.
  exact (Hgo _ (process_short_opts_harmless p (String c' chars) rest v)).
Qed.

Lemma parse_args_raise (p : Optparse.t) (args : list string) (e : exn) :
  Optparse.parse_args p args = Raise e →
  e = SystemExit 2 ∨ e = UnboundLocalError "value" ∨ ∃ msg, e = AttributeError msg.
Proof.
  unfold Optparse.parse_args.
  pose proof (process_args_raise p (length args) args (Optparse.get_default_values p) []
                (le_n _)) as H.
  destruct (Optparse.process_args _ _ _ _) as [[[v largs] rargs] [[opt|e']|]]; try done.
  - destruct (Optparse.error_silenced p); [done|]. intros [= <-]. by left.
  - intros [= <-]. destruct H as [->|H]; [|by right; right].
    unfold Optparse.direct_error. destruct (Optparse.error_silenced p); auto.
Qed.

(** ** What leaves the dispatcher *)

Lemma apply_overrides_raise (config : KConfig.t) (options : Optparse.values) (e : exn) :
  Cli.apply_overrides config options = Raise e → ∃ msg, e = AttributeError msg.
Proof.
  unfold Cli.apply_overrides, Cli.CONFIG_DEFAULTS, Optparse.getattr. simpl.
  repeat match goal with
         | |- context [options !! ?k] => destruct (options !! k)
         end;
    intros [= <-]; eauto.
Qed.

Lemma listed_group_found (reg : Cli.registry) (apis : list string) (g : value) :
  g ∈ Cli.available_groups reg apis → OrderedDict.get reg g ≠ None.
Proof.
  rewrite available_groups_iff. intros (cmds & n & c & Hin & _) Hget.
  apply od_get_None in Hget. apply Hget.
  apply list_elem_of_fmap. by exists (g, cmds).
Qed.

Lemma listed_command_found (cmds : OrderedDict.t value Cli.cls) (apis : list string)
    (n : value) :
  n ∈ Cli.available_commands cmds apis → OrderedDict.get cmds n ≠ None.
Proof.
  rewrite available_commands_iff. intros (c & Hin & _) Hget.
  apply od_get_None in Hget. apply Hget.
  apply list_elem_of_fmap. by exists (n, c).
Qed.

(** What ends the part of [main] before the handler: a failure of the
    option parsing, or the [IndexError] of [print_help] on an empty
    [sys.argv]. *)
Lemma resolve_raises (reg : Cli.registry) (e : Cli.env) (tr : list Cli.event) (ex : exn) :
  Cli.resolve reg e = (tr, Raise ex) →
  Cli.parse_failure ex ∨ (ex = IndexError "list index out of range" ∧ Cli.argv e = []).
Proof.
  unfold Cli.resolve, Cli.print_commands, Cli.print_help,
    Cli.bind, Cli.lift, Cli.tell, Cli.ret, Cli.raise, Optparse.getattr, call_split.
  remember (Cli.argv e) as argv eqn:Hargv.
  repeat match goal with
         | |- context [match ?x with _ => _ end] =>
             lazymatch x with
             | context [match _ with _ => _ end] => fail
             | _ => destruct x eqn:?
             end
         end;
    intros [=]; subst;
    try (by right);
    try (by left; right; right; eauto);
    try (by left; eapply parse_args_raise);
    try (match goal with
         | H : Cli.apply_overrides _ _ = Raise _ |- _ =>
             apply apply_overrides_raise in H as [msg ->]; left; right; right; eauto
         end);
    exfalso;
    match goal with
    | H : negb (bool_decide (?g ∈ Cli.available_groups _ _)) = false,
      G : OrderedDict.get _ ?g = None |- _ =>
        apply negb_false_iff, bool_decide_eq_true in H;
        exact (listed_group_found _ _ _ H G)
    | H : negb (bool_decide (?n ∈ Cli.available_commands _ _)) = false,
      G : OrderedDict.get _ ?n = None |- _ =>
        apply negb_false_iff, bool_decide_eq_true in H;
        exact (listed_command_found _ _ _ H G)
    end.
Qed.



(** X8. The exit status is 0, 1 or 2 on every command line and every
    configuration, as long as the handler that is reached returns
    [None] or 1 (what the handlers of cli.py do) or raises something
    other than [SystemExit]. *)
Theorem exit_status_range (reg : Cli.registry) (e : Cli.env) :
  (∀ cmd actual,
     match snd (Cli.body e cmd actual) with
     | Ok v => v = VNone ∨ v = VInt 1
     | Raise (SystemExit _) => False
     | Raise _ => True
     end) →
  Cli.exit_status (snd (Cli.main reg e)) = 0%Z
  ∨ Cli.exit_status (snd (Cli.main reg e)) = 1%Z
  ∨ Cli.exit_status (snd (Cli.main reg e)) = 2%Z.
Proof.
  intros Hbody. unfold Cli.main, Cli.bind.
  destruct (Cli.resolve reg e) as [tr [[v|[[p cmd] args]]|ex]] eqn:Hres.
  - simpl Cli.ret. cbv beta iota. simpl snd.
    destruct (early_return_codes _ _ _ _ Hres) as [-> | ->]; auto.
  - destruct (Cli.invoke e p cmd args) as [tr' r] eqn:Hinv. simpl snd.
    assert (Hr : r = snd (Cli.invoke e p cmd args)) by by rewrite Hinv.
    rewrite Hr. clear Hinv Hr. unfold Cli.invoke, Cli.call_main.
    rewrite (print_help_prints e p (handler_reached_argv _ _ _ _ Hres)).
    destruct (Cli.accepts _ _); [|simpl; auto].
    specialize (Hbody cmd (Cli.slice_from args 3)).
    destruct (Cli.body e cmd _) as [tr'' [v|[]]]; simpl in *; auto; try done.
    destruct Hbody as [-> | ->]; auto.
  - simpl.
    destruct (resolve_raises _ _ _ _ Hres) as [[-> | [-> | [msg ->]]] | [-> _]]; auto.
Qed.

(** [kamaki server delete 42] against a service that rejects the
    request: the handler raises [ClientError], the status is 2. *)
Lemma exit_status_range_witness :
  Cli.exit_status
    (snd (Cli.main Cli._commands
            (Sample.invocation ["kamaki"; "server"; "delete"; "42"] Sample.rejects))) = 0%Z
  ∨ Cli.exit_status
      (snd (Cli.main Cli._commands
              (Sample.invocation ["kamaki"; "server"; "delete"; "42"] Sample.rejects))) = 1%Z
  ∨ Cli.exit_status
      (snd (Cli.main Cli._commands
              (Sample.invocation ["kamaki"; "server"; "delete"; "42"] Sample.rejects))) = 2%Z.
Proof.
  apply exit_status_range. intros cmd actual. simpl. exact I.
Defined.


(** ** The registry after a series of registrations *)

Lemma first_seen_snoc {A} `{EqDecision A} (l : list A) (x : A) :
  Cli.first_seen (l ++ [x]) = if decide (x ∈ l) then Cli.first_seen l else Cli.first_seen l ++ [x].
Proof.
  unfold Cli.first_seen. rewrite rev_unit. simpl.
  destruct (decide_rel elem_of x (rev l)) as [Hin|Hin];
    destruct (decide (x ∈ l)) as [Hin'|Hin']; try done.
  - exfalso. apply Hin'. rewrite list_elem_of_In in Hin |- *. by apply in_rev.
  - exfalso. apply Hin. rewrite list_elem_of_In in Hin' |- *. by apply in_rev in Hin'.
Qed.

Lemma elem_of_first_seen {A} `{EqDecision A} (l : list A) (x : A) :
  x ∈ Cli.first_seen l ↔ x ∈ l.
Proof.
  unfold Cli.first_seen. rewrite !list_elem_of_In, <- in_rev, <- !list_elem_of_In.
  rewrite elem_of_remove_dups, !list_elem_of_In. symmetry. apply in_rev.
Qed.

Lemma register_keys (reg : Cli.registry) (k : Cli.cls) :
  OrderedDict.keys (Cli.register reg k)
  = if OrderedDict.contains reg (Cli.group k) then OrderedDict.keys reg
    else OrderedDict.keys reg ++ [Cli.group k].
Proof.
  unfold Cli.register.
  destruct (OrderedDict.contains reg (Cli.group k)) eqn:Hc; simpl.
  - unfold OrderedDict.contains in Hc.
    destruct (OrderedDict.get reg (Cli.group k)) eqn:Hg; [|done].
    rewrite od_keys_setitem. unfold OrderedDict.contains. by rewrite Hg.
  - rewrite od_get_setitem_eq, od_keys_setitem.
    replace (OrderedDict.contains (OrderedDict.setitem reg (Cli.group k) []) (Cli.group k))
      with true by (unfold OrderedDict.contains; by rewrite od_get_setitem_eq).
    by rewrite od_keys_setitem, Hc.
Qed.

Lemma register_commands (reg : Cli.registry) (k : Cli.cls) (g : value) :
  Cli.commands_of (Cli.register reg k) g
  = if decide (Cli.group k = g)
    then OrderedDict.setitem (Cli.commands_of reg g) (Cli.name k) k
    else Cli.commands_of reg g.
Proof.
  unfold Cli.commands_of, Cli.register, OrderedDict.contains.
  destruct (decide (Cli.group k = g)) as [<-|Hne].
  - destruct (OrderedDict.get reg (Cli.group k)) as [cmds|] eqn:Hg; simpl.
    + by rewrite Hg, od_get_setitem_eq.
    + by rewrite od_get_setitem_eq, od_get_setitem_eq.
  - destruct (OrderedDict.get reg (Cli.group k)) as [cmds|] eqn:Hg; simpl.
    + rewrite Hg. by rewrite od_get_setitem_ne.
    + rewrite od_get_setitem_eq. by rewrite !od_get_setitem_ne.
Qed.

Lemma find_commands (reg : Cli.registry) (g n : value) :
  Cli.find reg g n = OrderedDict.get (Cli.commands_of reg g) n.
Proof. unfold Cli.find, Cli.commands_of. by destruct (OrderedDict.get reg g). Qed.

(** X9. The registry after the classes [ks] have been decorated in that
    order: the groups stand in the order of their first registration,
    each once; so do the command names inside each group; and under a
    group and a name is filed the class that was registered last with
    them, earlier ones being replaced in place. *)
Theorem registry_of_registrations (ks : list Cli.cls) :
  let reg := fold_left Cli.register ks [] in
  OrderedDict.keys reg = Cli.first_seen (map Cli.group ks)
  ∧ (∀ g, OrderedDict.keys (Cli.commands_of reg g)
          = Cli.first_seen (map Cli.name (filter (fun k => Cli.group k = g) ks)))
  ∧ (∀ g n, Cli.find reg g n
            = last (filter (fun k => Cli.group k = g ∧ Cli.name k = n) ks)).
Proof.
  induction ks as [|k ks IH] using rev_ind; [done|].
  rewrite fold_left_app. simpl fold_left.
  set (reg := fold_left Cli.register ks []) in *. simpl in IH.
  destruct IH as (Hkeys & Hnames & Hfind). cbv zeta.
  split; [|split].
  - rewrite map_app. change (map Cli.group [k]) with [Cli.group k].
    rewrite first_seen_snoc, register_keys, <- Hkeys.
    destruct (OrderedDict.contains reg (Cli.group k)) eqn:Hc;
      destruct (decide (Cli.group k ∈ map Cli.group ks)) as [Hin|Hin]; try done.
    + exfalso. apply Hin. apply elem_of_first_seen. rewrite <- Hkeys.
      by apply od_contains_keys.
    + exfalso. apply elem_of_first_seen in Hin. rewrite <- Hkeys in Hin.
      apply od_contains_keys in Hin. congruence.
  - intros g. rewrite register_commands, filter_app, filter_cons, filter_nil.
    cbv beta. destruct (decide (Cli.group k = g)) as [Hg|Hg].
    + rewrite map_app. change (map Cli.name [k]) with [Cli.name k].
      rewrite first_seen_snoc, od_keys_setitem, <- Hnames.
      destruct (OrderedDict.contains (Cli.commands_of reg g) (Cli.name k)) eqn:Hc;
        destruct (decide (Cli.name k ∈ map Cli.name (filter (fun k0 => Cli.group k0 = g) ks)))
          as [Hin|Hin]; try done.
      * exfalso. apply Hin. apply elem_of_first_seen. rewrite <- Hnames.
        by apply od_contains_keys.
      * exfalso. apply elem_of_first_seen in Hin. rewrite <- Hnames in Hin.
        apply od_contains_keys in Hin. congruence.
    + by rewrite List.app_nil_r.
  - intros g n. rewrite find_commands, register_commands, filter_app, filter_cons, filter_nil.
    cbv beta. destruct (decide (Cli.group k = g)) as [Hg|Hg].
    + destruct (decide (Cli.name k = n)) as [Hn|Hn].
      * rewrite decide_True by done.
        rewrite last_snoc. subst n. apply od_get_setitem_eq.
      * rewrite decide_False by (by intros [_ ?]).
        rewrite List.app_nil_r, od_get_setitem_ne by done.
        rewrite <- find_commands. apply Hfind.
    + rewrite decide_False by (by intros [? _]).
      rewrite List.app_nil_r, <- find_commands. apply Hfind.
Qed.

(** ** What the help lists *)

Lemma register_nodup (reg : Cli.registry) (k : Cli.cls) :
  (∀ g, NoDup (OrderedDict.keys (Cli.commands_of reg g))) →
  ∀ g, NoDup (OrderedDict.keys (Cli.commands_of (Cli.register reg k) g)).
Proof.
  intros Hnd g. rewrite register_commands.
  destruct (decide (Cli.group k = g)); [by apply od_nodup_setitem | done].
Qed.

Lemma registrations_nodup (ks : list Cli.cls) (g : value) :
  NoDup (OrderedDict.keys (Cli.commands_of (fold_left Cli.register ks []) g)).
Proof.
  revert g. induction ks as [|k ks IH] using rev_ind; intros g.
  - apply NoDup_nil_2.
  - rewrite fold_left_app. by apply register_nodup.
Qed.

Lemma flat_map_agree {A B} (f g : A → list B) (l : list A) :
  (∀ x, x ∈ l → f x = g x) → flat_map f l = flat_map g l.
Proof.
  induction l as [|x l IH]; intros Hfg; simpl; [done|].
  rewrite Hfg by left. rewrite IH; [done|]. intros y Hy. apply Hfg. by right.
Qed.

(** X10. In a registry built by registrations, the commands offered for
    an existing group are the names of its visible classes in
    registration order, and the help for the group prints one line for
    each of them, in that order, and for no other command. *)
Theorem help_lists_visible_commands (ks : list Cli.cls) (apis : list string) (g : value)
    (cmds : OrderedDict.t value Cli.cls) :
  OrderedDict.get (fold_left Cli.register ks []) g = Some cmds →
  Cli.available_commands cmds apis
  = map fst (filter (fun nc => Cli.visible apis (snd nc) = true) cmds)
  ∧ Cli.print_commands (fold_left Cli.register ks []) g (Cli.available_commands cmds apis)
    = ([Cli.Out ""; Cli.Out "Commands:"]
         ++ map Cli.command_line (filter (fun nc => Cli.visible apis (snd nc) = true) cmds),
       Ok tt).
Proof.
  intros Hget.
  assert (Hnd : NoDup (OrderedDict.keys cmds)).
  { pose proof (registrations_nodup ks g) as H. unfold Cli.commands_of in H.
    by rewrite Hget in H. }
  split.
  - unfold Cli.available_commands, OrderedDict.items.
    apply (flat_map_filter (fun nc => Cli.visible apis (snd nc)) fst).
  - unfold Cli.print_commands, Cli.bind, Cli.tell. rewrite Hget. f_equal. f_equal.
    unfold OrderedDict.items.
    rewrite <- (flat_map_filter (fun nc => Cli.visible apis (snd nc)) Cli.command_line).
    apply flat_map_agree. intros [n c] Hin. simpl.
    destruct (Cli.visible apis c) eqn:Hv.
    + rewrite bool_decide_eq_true_2; [done|].
      apply available_commands_iff. by exists c.
    + rewrite bool_decide_eq_false_2; [done|].
      intros (c' & Hin' & Hv')%available_commands_iff.
      apply (od_elem_get _ _ _ Hnd) in Hin. apply (od_elem_get _ _ _ Hnd) in Hin'.
      congruence.
Qed.

(** The module-level registry of cli.py is such a series of
    registrations. *)
Lemma commands_are_registrations :
  Cli._commands
  = fold_left Cli.register
      (map (fun ac => Cli.decorator (fst ac) VNone VNone VNone VNone (snd ac)) Cli.classes) [].
Proof. reflexivity. Qed.

(** Three registrations in the group [server]; with only the [nova]
    API enabled the group offers [list] and [ls], in that order. *)
Lemma help_lists_visible_commands_witness :
  OrderedDict.get (fold_left Cli.register Sample.servers []) (VStr "server")
  = Some (Cli.commands_of (fold_left Cli.register Sample.servers []) (VStr "server"))
  ∧ Cli.available_commands
      (Cli.commands_of (fold_left Cli.register Sample.servers []) (VStr "server")) ["nova"]
    = [VStr "list"; VStr "ls"].
Proof.
  split; [reflexivity|].
  exact (eq_trans
           (proj1 (help_lists_visible_commands Sample.servers ["nova"] (VStr "server") _ eq_refl))
           eq_refl).
Defined.

(** ** What the operations of the storage client send *)


Ltac storage_unfold :=
  unfold Storage.exec, Storage.fmap_,
    Storage.delete_account_meta, Storage.get_account_info, Storage.replace_account_meta,
    Storage.create_container, Storage.get_container_info, Storage.delete_container,
    Storage.list_containers, Storage.create_object, Storage.create_directory,
    Storage.get_object_meta, Storage.delete_object_meta, Storage.get_object_info,
    Storage.replace_object, Storage.get_object, Storage.delete_object,
    Storage.list_objects, Storage.list_objects_in_path,
    Storage.assert_container, Storage.assert_account,
    Storage.head, Storage.delete, Storage.get, Storage.post, Storage.put,
    Storage.perform, Storage.print, Storage.bind, Storage.this, Storage.ret, Storage.raise.

Ltac storage_cases :=
  repeat (simpl;
          match goal with
          | |- context [match ?x with _ => _ end] =>
              lazymatch x with
              | context [match _ with _ => _ end] => fail
              | _ => destruct x eqn:?
              end
          end).

Section storage_footprint.
Context `{Storage.Collaborators}.

(** X11. Whatever the service answers, an operation of the storage
    client leaves the client object as it was and adds at most two
    requests to those already sent; it sends none exactly when the
    account (or the container it works on) is not set; the operations
    that only read send nothing but GET and HEAD requests; and only
    [delete_object_meta] prints. *)
Theorem operation_footprint (c : Storage.call) (w : Storage.world) :
  Storage.self (fst (Storage.exec c w)) = Storage.self w
  ∧ (∃ rqs, Storage.sent (fst (Storage.exec c w)) = Storage.sent w ++ rqs
            ∧ (length rqs ≤ 2)%nat
            ∧ (rqs = [] ↔ Storage.ready c w = false)
            ∧ (Storage.read_only c = true →
               Forall (fun rq => Storage.verb rq = "GET" ∨ Storage.verb rq = "HEAD") rqs))
  ∧ ((∀ k o, c ≠ Storage.DeleteObjectMeta k o) →
     Storage.printed (fst (Storage.exec c w)) = Storage.printed w).
Proof.
  unfold Storage.ready.
  destruct (truthy (Storage.account (Storage.self w))) eqn:Ha;
    destruct (truthy (Storage.container (Storage.self w))) eqn:Hc;
    destruct c; storage_unfold; simpl; rewrite ?Ha, ?Hc; simpl; rewrite ?Ha, ?Hc;
    storage_cases;
    (split; [reflexivity|]);
    (split; [|first [reflexivity | intros Hno; exfalso; by eapply Hno]]);
    (first [ exists []; split; [by rewrite List.app_nil_r|]
           | eexists; split; [rewrite <- ?List.app_assoc; reflexivity|] ]);
    (split; [simpl; lia|]);
    (split; [split; intros; done|]);
    intros Hro; try discriminate Hro;
    repeat (apply Forall_cons_2; [first [by left | by right]|]); apply Forall_nil_2.
Qed.
End storage_footprint.

Section storage_outcomes.
Context `{Storage.Collaborators}.

(** X12. An operation of the storage client returns normally only if it
    sent a request and every request it sent was answered with one of
    the statuses 200, 201, 202, 204: an answer 401, 404 or 409, which
    some operations list as accepted, still ends in an exception. *)
Theorem success_means_2xx (c : Storage.call) (w w' : Storage.world) (v : Storage.returned) :
  Storage.exec c w = (w', Ok v) →
  ∃ rqs, Storage.sent w' = Storage.sent w ++ rqs
         ∧ rqs ≠ []
         ∧ ∀ i rq, rqs !! i = Some rq →
             Storage.status_code (Storage.service (Storage.sent w ++ take i rqs) rq)
             ∈ [200; 201; 202; 204]%Z.
Proof.
  destruct c; storage_unfold; storage_cases; intros [= <- <-]; simpl;
    (eexists; split; [rewrite <- ?List.app_assoc; reflexivity|]);
    (split; [done|]);
    intros [|[|i]] rq; simpl; intros [= <-]; rewrite ?List.app_nil_r;
    repeat match goal with
           | Hb : bool_decide (_ ∈ _) = true |- _ => apply bool_decide_eq_true in Hb
           | Hb : (_ =? _)%Z = false |- _ => apply Z.eqb_neq in Hb
           end;
    match goal with
    | Hb : ?s ∈ _ |- ?s ∈ _ =>
        repeat (apply elem_of_cons in Hb as [Hb|Hb];
                [first [congruence | rewrite Hb; by repeat constructor]|]);
        by apply elem_of_nil in Hb
    end.
Qed.
End storage_outcomes.

(** Listing the containers of an account when the service answers 204. *)
Lemma success_means_2xx_witness :
  ∃ rqs, Storage.sent (fst (@Storage.exec (Sample.answering 204) Storage.ListContainers Sample.tenant))
         = Storage.sent Sample.tenant ++ rqs
         ∧ rqs ≠ []
         ∧ ∀ i rq, rqs !! i = Some rq →
             Storage.status_code
               (@Storage.service (Sample.answering 204) (Storage.sent Sample.tenant ++ take i rqs) rq)
             ∈ [200; 201; 202; 204]%Z.
Proof.
  apply (@success_means_2xx (Sample.answering 204) Storage.ListContainers Sample.tenant _ (Storage.Json "")).
  reflexivity.
Defined.

Section storage_meta.
Context `{Storage.Collaborators}.

(** X13. Deleting a metadata key that the account (or the object) does
    not have: once the HEAD request has been answered with its success
    status and filtering the key out of the returned headers removes
    nothing, the operation raises [ClientError] with status 404 of its
    own accord; the HEAD request is the only one sent, no POST follows
    and nothing is printed. *)
Theorem missing_meta_key (metakey object : string) (w : Storage.world) :
  truthy (Storage.account (Storage.self w)) = true →
  (∀ rq r,
     rq = Storage.blank "HEAD" (Storage.path4url [Storage.account (Storage.self w)])
            [204; 401]%Z →
     r = Storage.service (Storage.sent w) rq →
     Storage.status_code r = 204%Z →
     size (Storage.filter_out (Storage.headers r) ("X-Account-Meta-" +:+ metakey) true)
     = size (Storage.headers r) →
     Storage.delete_account_meta metakey w
     = (Storage.mkworld (Storage.self w) (Storage.sent w ++ [rq]) (Storage.printed w),
        Raise (ClientError ("X-Account-Meta-" +:+ metakey +:+ " not found") 404 "")))
  ∧ (∀ rq r,
       truthy (Storage.container (Storage.self w)) = true →
       rq = Storage.blank "HEAD"
              (Storage.path4url [Storage.account (Storage.self w);
                                 Storage.container (Storage.self w); VStr object])
              [200%Z] →
       r = Storage.service (Storage.sent w) rq →
       Storage.status_code r = 200%Z →
       size (Storage.filter_out (Storage.headers r) ("X-Object-Meta-" +:+ metakey) true)
       = size (Storage.headers r) →
       Storage.delete_object_meta metakey object w
       = (Storage.mkworld (Storage.self w) (Storage.sent w ++ [rq]) (Storage.printed w),
          Raise (ClientError ("X-Object-Meta-" +:+ metakey +:+ " not found") 404 ""))).
Proof.
  intros Ha. split.
  - intros rq r -> -> Hst Hsz. storage_unfold. simpl. rewrite Ha. simpl.
    unfold Storage.blank in *.
    repeat first [rewrite Hst | rewrite Hsz | rewrite Nat.eqb_refl | progress simpl].
    reflexivity.
  - intros rq r Hc -> -> Hst Hsz. storage_unfold. simpl. rewrite Ha. simpl. rewrite Hc. simpl.
    unfold Storage.blank in *.
    repeat first [rewrite Hst | rewrite Hsz | rewrite Nat.eqb_refl | progress simpl].
    reflexivity.
Qed.
End storage_meta.

(** An account and an object without metadata: deleting the key
    [color] is refused after the HEAD request. *)
Lemma missing_meta_key_witness :
  @Storage.delete_account_meta (Sample.answering 204) "color" Sample.tenant
  = (Storage.mkworld (Storage.self Sample.tenant)
       [Storage.blank "HEAD" "/user" [204; 401]%Z] [],
     Raise (ClientError "X-Account-Meta-color not found" 404 ""))
  ∧ @Storage.delete_object_meta (Sample.answering 200) "color" "cat.png" Sample.tenant
    = (Storage.mkworld (Storage.self Sample.tenant)
         [Storage.blank "HEAD" "/user/pics/cat.png" [200%Z]] [],
       Raise (ClientError "X-Object-Meta-color not found" 404 "")).
Proof.
  split.
  - apply (proj1 (@missing_meta_key (Sample.answering 204) "color" "cat.png" Sample.tenant eq_refl)
             _ _ eq_refl eq_refl); reflexivity.
  - apply (proj2 (@missing_meta_key (Sample.answering 200) "color" "cat.png" Sample.tenant eq_refl)
             _ _ eq_refl eq_refl eq_refl); reflexivity.
Defined.

(** ** An option that lacks its value *)

Lemma process_args_skip_positional (p : Optparse.t) (v : Optparse.values)
    (largs positional rest : list string) :
  Forall (fun a => String.prefix "-" a = false) positional →
  Optparse.process_args p v largs (positional ++ rest)
  = Optparse.process_args p v (largs ++ positional) rest.
Proof.
  intros Hpos. revert largs. induction Hpos as [|a l Ha _ IH]; intros largs.
  - by rewrite List.app_nil_r.
  - assert (Hstep : Optparse.process_args p v largs ((a :: l) ++ rest)
                    = Optparse.process_args p v (largs ++ [a]) (l ++ rest)).
    { destruct a as [|c a]; [reflexivity|].
      destruct c as [[] [] [] [] [] [] [] []];
        first [reflexivity | exfalso; destruct a; vm_compute in Ha; discriminate Ha]. }
    rewrite Hstep, IH. by rewrite <- List.app_assoc.
Qed.

(** X14. A command line that ends with one of the global options that
    take a value ([--api], [--compute-url], [--images-url], [--token])
    but gives none, after positional arguments only: the silenced first
    parsing runs into the unassigned local of optparse, so [main] ends
    with [UnboundLocalError] before anything is printed or logged, and
    the process exits with status 1. *)
Theorem missing_option_value (reg : Cli.registry) (e : Cli.env) (positional : list string)
    (opt : string) :
  Forall (fun a => String.prefix "-" a = false) positional →
  opt ∈ ["--api"; "--compute-url"; "--images-url"; "--token"] →
  Cli.argv e = positional ++ [opt] →
  Cli.main reg e = ([], Raise (UnboundLocalError "value"))
  ∧ Cli.exit_status (snd (Cli.main reg e)) = 1%Z.
Proof.
  intros Hpos Hopt Hargv.
  assert (Hparse : Optparse.parse_args (Optparse.set_error Cli.global_parser true) (Cli.argv e)
                   = Raise (UnboundLocalError "value")).
  { unfold Optparse.parse_args. rewrite Hargv, (process_args_skip_positional _ _ _ _ _ Hpos).
    repeat (apply elem_of_cons in Hopt as [->|Hopt]); [reflexivity..|].
    by apply elem_of_nil in Hopt. }
  assert (Hmain : Cli.main reg e = ([], Raise (UnboundLocalError "value"))).
  { unfold Cli.main, Cli.resolve, Cli.bind at 1 2, Cli.lift. by rewrite Hparse. }
  split; [exact Hmain | by rewrite Hmain].
Qed.

(** [kamaki server list --token]. *)
Lemma missing_option_value_witness :
  Cli.main Cli._commands
    (Sample.invocation ["kamaki"; "server"; "list"; "--token"] Sample.succeeds)
  = ([], Raise (UnboundLocalError "value")).
Proof.
  apply (missing_option_value Cli._commands
           (Sample.invocation ["kamaki"; "server"; "list"; "--token"] Sample.succeeds)
           ["kamaki"; "server"; "list"] "--token").
  - repeat constructor.
  - repeat constructor.
  - reflexivity.
Defined.
